(** * CreatorStudio: the generation pipeline, its retry policy and the
      per-platform asset states

    A shallow embedding of [services/geminiService.ts], [types.ts] and the
    pipeline part of [App.tsx] (handleGenerateAll, triggerImageGeneration,
    handleRegenerateSingle, updateImageState).

    Conventions of the embedding.
    - A JavaScript string is a [string]; every character stands for one code
      unit below 256, so the only white space characters are 9-13, 32 and 160
      and the only line terminators are 10 and 13.
    - A value that may be [undefined] (or [null]) is an [option].
    - An [async] function is a computation in the monad [M]: it threads the
      world (the React state of [App] and the log of everything observable the
      program did) and either returns or throws.  The code is single threaded
      and every [await] is run to completion in program order.
    - [setImages (prev => ...)] updaters are applied in the order they are
      queued, so the [images] field is the value React reaches once the
      queued updaters have run.
    - The generative backend ([ai.models.generateContent]) and [JSON.parse]
      are parameters: the backend answers a request as an arbitrary function
      of the request and of the log so far. *)

From Stdlib Require Import ZArith List String Ascii Bool Lia DecimalString.
Import ListNotations.

Local Open Scope string_scope.
Local Open Scope Z_scope.
Local Open Scope list_scope.

(** ** JavaScript strings *)

Module JsString.

(** [Boolean(s)] for a string. *)
Definition truthy (s : string) : bool :=
  match s with EmptyString => false | String _ _ => true end.

(** [s.startsWith(p)], also the test used at every position by [includes]. *)
Fixpoint startsWith (p s : string) : bool :=
  match p, s with
  | EmptyString, _ => true
  | String a p', String b s' => Ascii.eqb a b && startsWith p' s'
  | String _ _, EmptyString => false
  end.

(** [s.includes(sub)]. *)
Fixpoint includes (s sub : string) : bool :=
  startsWith sub s ||
  match s with
  | EmptyString => false
  | String _ s' => includes s' sub
  end.

Fixpoint drop (n : nat) (s : string) : string :=
  match n, s with
  | O, _ => s
  | S n', String _ s' => drop n' s'
  | S _, EmptyString => EmptyString
  end.

(** White space and line terminators of ECMAScript among the code units
    below 256: TAB, LF, VT, FF, CR, SP and NBSP. *)
Definition isWhiteSpace (c : ascii) : bool :=
  let n := nat_of_ascii c in
  ((9 <=? n) && (n <=? 13))%nat || (n =? 32)%nat || (n =? 160)%nat.

Fixpoint trimStart (s : string) : string :=
  match s with
  | EmptyString => EmptyString
  | String c s' => if isWhiteSpace c then trimStart s' else s
  end.

Fixpoint trimEnd (s : string) : string :=
  match s with
  | EmptyString => EmptyString
  | String c s' =>
      match trimEnd s' with
      | EmptyString => if isWhiteSpace c then EmptyString else String c EmptyString
      | t => String c t
      end
  end.

(** [s.trim()]. *)
Definition trim (s : string) : string := trimEnd (trimStart s).

(** What [.] of a regular expression refuses. *)
Definition isLineTerminator (c : ascii) : bool :=
  let n := nat_of_ascii c in (n =? 10)%nat || (n =? 13)%nat.

Fixpoint noLineTerminator (s : string) : bool :=
  match s with
  | EmptyString => true
  | String c s' => negb (isLineTerminator c) && noLineTerminator s'
  end.

End JsString.

(** ** services/geminiService.ts: parseBase64 *)

Record InlineData := { mimeType : string; data : string }.

Definition base64_marker : string := ";base64,".

(** The two groups of [(.+);base64,(.+)$] on a string without line
    terminators: the first group is greedy, so the marker that is used is the
    last one that still leaves a non-empty second group. *)
Fixpoint match_groups (s : string) : option (string * string) :=
  match s with
  | EmptyString => None
  | String c s' =>
      match match_groups s' with
      | Some (m, d) => Some (String c m, d)
      | None =>
          if JsString.startsWith base64_marker s'
             && JsString.truthy (JsString.drop 8 s')
          then Some (String c EmptyString, JsString.drop 8 s')
          else None
      end
  end.

(** [base64String.match(/^data:(.+);base64,(.+)$/)], then the object built
    from the two groups; [None] is [null]. *)
Definition parseBase64 (base64String : string) : option InlineData :=
  if JsString.startsWith "data:" base64String then
    let rest := JsString.drop 5 base64String in
    if JsString.noLineTerminator rest then
      match match_groups rest with
      | Some (m, d) => Some {| mimeType := m; data := d |}
      | None => None
      end
    else None
  else None.

(** ** types.ts *)

Inductive PlatformKey := linkedin | twitter | instagram | blog.

Definition PlatformKey_eqb (a b : PlatformKey) : bool :=
  match a, b with
  | linkedin, linkedin | twitter, twitter
  | instagram, instagram | blog, blog => true
  | _, _ => false
  end.

Inductive Status := idle | loading | success | error.

Record ImageState := {
  status : Status;
  imageUrl : option string;
  prompt : option string;
  errorMsg : option string
}.

(** ['16:9' | '1:1'] *)
Inductive AspectRatio := Ratio_16_9 | Ratio_1_1.

Record PlatformConfig := {
  key : PlatformKey;
  label : string;
  aspectRatioLabel : string;
  apiAspectRatio : AspectRatio;
  description : string
}.

Definition PLATFORMS : list PlatformConfig :=
  [ {| key := linkedin;
       label := "LinkedIn Cover";
       aspectRatioLabel := "3:1 (Generated as 16:9)";
       apiAspectRatio := Ratio_16_9;
       description := "Safe zone: Subject in right third. Bottom-left blocked." |};
    {| key := twitter;
       label := "X / Twitter Header";
       aspectRatioLabel := "3:1 (Generated as 16:9)";
       apiAspectRatio := Ratio_16_9;
       description := "Focus centered/right. Bottom-left overlap." |};
    {| key := instagram;
       label := "Instagram Post";
       aspectRatioLabel := "1:1";
       apiAspectRatio := Ratio_1_1;
       description := "Centered composition. Square format." |};
    {| key := blog;
       label := "Blog Header";
       aspectRatioLabel := "16:9";
       apiAspectRatio := Ratio_16_9;
       description := "Cinematic wide shot. Text-safe bottom area." |} ].

(** The value [JSON.parse(text) as VisualPrompts], as far as the pipeline
    looks at it.  The cast is unchecked, so [platforms] is [None] when reading
    [visualPrompts.platforms[k]] raises a TypeError (the value or its
    [platforms] is null or undefined), and a platform without an entry reads
    as [undefined]. *)
Record VisualPrompts := {
  visualStyleSeed : option string;
  platforms : option (PlatformKey -> option string)
}.

(** ** Thrown values *)

Inductive JsValue := VUndefined | VNumber (n : Z) | VString (s : string).

Module JsError.
(** The fields of a thrown object that [withRetry] inspects; [error] is
    [error.error.code] when [error.error] is an object. *)
Record t := {
  status : JsValue;
  code : JsValue;
  message : option string;
  error : option JsValue
}.
End JsError.

(** [None] is a thrown [undefined]. *)
Definition Thrown := option JsError.t.

(** [new Error(msg)] *)
Definition new_Error (msg : string) : Thrown :=
  Some {| JsError.status := VUndefined; JsError.code := VUndefined;
          JsError.message := Some msg; JsError.error := None |}.

Definition strict_eq_number (v : JsValue) (n : Z) : bool :=
  match v with VNumber m => m =? n | _ => false end.

Definition strict_eq_string (v : JsValue) (s : string) : bool :=
  match v with VString t => String.eqb t s | _ => false end.

(** [message?.includes(sub)], as a condition. *)
Definition message_includes (m : option string) (sub : string) : bool :=
  match m with Some s => JsString.includes s sub | None => false end.

(** The [isQuotaError] constant of [withRetry]. *)
Definition isQuotaError (error : Thrown) : bool :=
  match error with
  | None => false
  | Some e =>
      strict_eq_number (JsError.status e) 429
      || strict_eq_number (JsError.code e) 429
      || message_includes (JsError.message e) "429"
      || message_includes (JsError.message e) "quota"
      || message_includes (JsError.message e) "RESOURCE_EXHAUSTED"
      || strict_eq_string (JsError.status e) "RESOURCE_EXHAUSTED"
      || match JsError.error e with
         | Some c => strict_eq_number c 429
         | None => false
         end
  end.

(** ** Requests, responses and the log *)

Inductive Part :=
| TextPart (text : option string)
| InlineDataPart (inlineData : InlineData).

Inductive RequestConfig :=
| PromptsConfig                         (* systemInstruction, JSON response schema *)
| ImageConfig (aspectRatio : AspectRatio).

Record GenerateContentRequest := {
  model : string;
  parts : list Part;
  config : RequestConfig
}.

Record ResponseInlineData := {
  r_mimeType : option string;
  r_data : option string
}.

Record ResponsePart := { part_inlineData : option ResponseInlineData }.

Record GenerateContentResponse := {
  response_text : option string;
  (* response.candidates?.[0]?.content?.parts *)
  response_parts : option (list ResponsePart)
}.

(** [Partial<ImageState>]: [None] is a key that the object literal does not
    have, [Some None] a key written with the value [undefined]. *)
Record PartialImageState := {
  set_status : option Status;
  set_imageUrl : option (option string);
  set_prompt : option (option string);
  set_errorMsg : option (option string)
}.

Inductive Event :=
| EvRequest (req : GenerateContentRequest)      (* ai.models.generateContent *)
| EvTimeout (ms : Z)                            (* an awaited setTimeout *)
| EvConsoleWarn (delay attempt retries : Z)
| EvConsoleError (what : string) (e : Thrown)
| EvSetImages (k : PlatformKey) (newState : PartialImageState).

(** [Record<PlatformKey, ImageState>] *)
Record Images := {
  at_linkedin : ImageState;
  at_twitter : ImageState;
  at_instagram : ImageState;
  at_blog : ImageState
}.

Definition get (k : PlatformKey) (i : Images) : ImageState :=
  match k with
  | linkedin => at_linkedin i
  | twitter => at_twitter i
  | instagram => at_instagram i
  | blog => at_blog i
  end.

Definition set (k : PlatformKey) (v : ImageState) (i : Images) : Images :=
  match k with
  | linkedin => {| at_linkedin := v; at_twitter := at_twitter i;
                   at_instagram := at_instagram i; at_blog := at_blog i |}
  | twitter => {| at_linkedin := at_linkedin i; at_twitter := v;
                  at_instagram := at_instagram i; at_blog := at_blog i |}
  | instagram => {| at_linkedin := at_linkedin i; at_twitter := at_twitter i;
                    at_instagram := v; at_blog := at_blog i |}
  | blog => {| at_linkedin := at_linkedin i; at_twitter := at_twitter i;
               at_instagram := at_instagram i; at_blog := v |}
  end.

(** [{ ...prev, ...newState }] *)
Definition spread (prev : ImageState) (newState : PartialImageState) : ImageState :=
  {| status := match set_status newState with Some s => s | None => status prev end;
     imageUrl := match set_imageUrl newState with Some u => u | None => imageUrl prev end;
     prompt := match set_prompt newState with Some p => p | None => prompt prev end;
     errorMsg := match set_errorMsg newState with Some m => m | None => errorMsg prev end |}.

Definition idle_state : ImageState :=
  {| status := idle; imageUrl := None; prompt := None; errorMsg := None |}.

(** The initial value of [useState] in [App]. *)
Definition initial_images : Images :=
  {| at_linkedin := idle_state; at_twitter := idle_state;
     at_instagram := idle_state; at_blog := idle_state |}.

Record World := {
  images : Images;
  isAnalyzing : bool;
  log : list Event
}.

Definition initial_world : World :=
  {| images := initial_images; isAnalyzing := false; log := [] |}.

Definition emit (e : Event) (w : World) : World :=
  {| images := images w; isAnalyzing := isAnalyzing w; log := log w ++ [e] |}.

(** ** Computations: state, log and exceptions *)

Inductive Outcome (A : Type) :=
| Returned (a : A)
| Threw (e : Thrown).
Arguments Returned {A} a.
Arguments Threw {A} e.

Definition M (A : Type) : Type := World -> Outcome A * World.

Definition ret {A} (a : A) : M A := fun w => (Returned a, w).

Definition throw {A} (e : Thrown) : M A := fun w => (Threw e, w).

Definition bind {A B} (m : M A) (k : A -> M B) : M B :=
  fun w =>
    match m w with
    | (Returned a, w') => k a w'
    | (Threw e, w') => (Threw e, w')
    end.

(** [try { m } catch (e) { handler e }] *)
Definition try_catch {A} (m : M A) (handler : Thrown -> M A) : M A :=
  fun w =>
    match m w with
    | (Returned a, w') => (Returned a, w')
    | (Threw e, w') => handler e w'
    end.

Declare Scope js_scope.
Delimit Scope js_scope with js.
Notation "x <- m ;; k" := (bind m (fun x => k))
  (at level 100, m at next level, right associativity) : js_scope.
Notation "m ;; k" := (bind m (fun _ => k))
  (at level 100, right associativity) : js_scope.
Local Open Scope js_scope.

(** [l.forEach(f)] and [for (const x of l) { await f x }] *)
Fixpoint forEach {A} (l : list A) (f : A -> M unit) : M unit :=
  match l with
  | [] => ret tt
  | x :: l' => f x ;; forEach l' f
  end.

Definition act (f : World -> World) : M unit := fun w => (Returned tt, f w).

(** [await new Promise(resolve => setTimeout(resolve, ms))] *)
Definition sleep (ms : Z) : M unit := act (emit (EvTimeout ms)).

Definition console_warn (delay attempt retries : Z) : M unit :=
  act (emit (EvConsoleWarn delay attempt retries)).

Definition console_error (what : string) (e : Thrown) : M unit :=
  act (emit (EvConsoleError what e)).

Definition setIsAnalyzing (b : bool) : M unit :=
  act (fun w => {| images := images w; isAnalyzing := b; log := log w |}).

(** [updateImageState]: the updater replaces the record of [k] by the spread
    of the previous record and [newState]. *)
Definition updateImageState (k : PlatformKey) (newState : PartialImageState) : M unit :=
  act (fun w =>
         {| images := set k (spread (get k (images w)) newState) (images w);
            isAnalyzing := isAnalyzing w;
            log := log w ++ [EvSetImages k newState] |}).

(** The backend: what [ai.models.generateContent] answers to a request, given
    the log at the moment the request is made. *)
Definition Backend : Type :=
  list Event -> GenerateContentRequest -> Outcome GenerateContentResponse.

(** [JSON.parse]: the parsed value, or the SyntaxError it throws. *)
Definition JsonParser : Type := string -> Outcome VisualPrompts.

(** [x || undefined] for [x : string | null], and [if (x)] for an optional
    string: the empty string counts as absent. *)
Definition or_undefined (x : option string) : option string :=
  match x with
  | Some s => if JsString.truthy s then Some s else None
  | None => None
  end.

Definition truthy_opt (x : option string) : bool :=
  match or_undefined x with Some _ => true | None => false end.

(** [`${x}`] for an optional string. *)
Definition template (x : option string) : string :=
  match x with Some s => s | None => "undefined" end.

(** The loop of [generateImage] over the response parts: the first part with
    a non-empty [inlineData.data], as a data URI. *)
Fixpoint first_image (responseParts : list ResponsePart) : option string :=
  match responseParts with
  | [] => None
  | part :: rest =>
      match part_inlineData part with
      | Some d =>
          if truthy_opt (r_data d)
          then Some ("data:" ++ template (r_mimeType d)
                       ++ ";base64," ++ template (r_data d))%string
          else first_image rest
      | None => first_image rest
      end
  end.

(** The parts of a request: the text, then the reference image when it is
    given and [parseBase64] accepts it. *)
Definition request_parts (text : option string) (imageBase64 : option string) : list Part :=
  [TextPart text] ++
  match or_undefined imageBase64 with
  | Some s =>
      match parseBase64 s with
      | Some parsed =>
          [InlineDataPart {| mimeType := mimeType parsed; data := data parsed |}]
      | None => []
      end
  | None => []
  end.

Definition prompts_request (userContext : string) (imageBase64 : option string)
  : GenerateContentRequest :=
  {| model := "gemini-3-flash-preview";
     parts := request_parts (Some userContext) imageBase64;
     config := PromptsConfig |}.

Definition image_request (prompt : option string) (aspectRatio : AspectRatio)
  (referenceImageBase64 : option string) : GenerateContentRequest :=
  {| model := "gemini-2.5-flash-image";
     parts := request_parts prompt referenceImageBase64;
     config := ImageConfig aspectRatio |}.

Section Service.

Variable backend : Backend.
Variable JSON_parse : JsonParser.

Definition generateContent (req : GenerateContentRequest) : M GenerateContentResponse :=
  fun w => (backend (log w) req, emit (EvRequest req) w).

(** The [for] loop of [withRetry], entered with counter [i] and
    [remaining = retries - i] iterations left; it is left by the [throw]
    after the loop when none is left. *)
Fixpoint withRetry_from {T} (operation : M T) (retries initialDelay : Z)
  (remaining : nat) (i : Z) (lastError : Thrown) : M T :=
  match remaining with
  | O => throw lastError
  | S remaining' =>
      try_catch operation
        (fun error =>
           if isQuotaError error && (i <? retries - 1) then
             let delay := initialDelay * 2 ^ i in
             console_warn delay (i + 1) retries ;;
             sleep delay ;;
             withRetry_from operation retries initialDelay remaining' (i + 1) error
           else throw error)
  end.

Definition withRetry {T} (operation : M T) (retries initialDelay : Z) : M T :=
  withRetry_from operation retries initialDelay (Z.to_nat retries) 0 None.

(** The operation that [generateVisualPrompts] hands to [withRetry]. *)
Definition promptsOperation (userContext : string) (imageBase64 : option string)
  : M VisualPrompts :=
  try_catch
    (response <- generateContent (prompts_request userContext imageBase64) ;;
     match or_undefined (response_text response) with
     | None => throw (new_Error "No text returned from Gemini")
     | Some text => fun w => (JSON_parse text, w)
     end)
    (fun error => console_error "Error generating prompts:" error ;; throw error).

Definition generateVisualPrompts (userContext : string) (imageBase64 : option string)
  : M VisualPrompts :=
  withRetry (promptsOperation userContext imageBase64) 3 2000.

(** The operation that [generateImage] hands to [withRetry]. *)
Definition imageOperation (prompt : option string) (aspectRatio : AspectRatio)
  (referenceImageBase64 : option string) : M string :=
  try_catch
    (response <- generateContent (image_request prompt aspectRatio referenceImageBase64) ;;
     match response_parts response with
     | None => throw (new_Error "No content parts returned")
     | Some responseParts =>
         match first_image responseParts with
         | Some url => ret url
         | None => throw (new_Error "No image data found in response")
         end
     end)
    (fun error => console_error "Error generating image:" error ;; throw error).

Definition generateImage (prompt : option string) (aspectRatio : AspectRatio)
  (referenceImageBase64 : option string) : M string :=
  withRetry (imageOperation prompt aspectRatio referenceImageBase64) 3 2000.

(** ** App.tsx: the pipeline *)

Definition set_loading (prompt : option string) : PartialImageState :=
  {| set_status := Some loading; set_imageUrl := None;
     set_prompt := Some prompt; set_errorMsg := None |}.

Definition set_success (base64Image : string) : PartialImageState :=
  {| set_status := Some success; set_imageUrl := Some (Some base64Image);
     set_prompt := None; set_errorMsg := None |}.

Definition set_error (msg : string) : PartialImageState :=
  {| set_status := Some error; set_imageUrl := None;
     set_prompt := None; set_errorMsg := Some (Some msg) |}.

Definition set_idle : PartialImageState :=
  {| set_status := Some idle; set_imageUrl := None;
     set_prompt := None; set_errorMsg := Some None |}.

Definition triggerImageGeneration (k : PlatformKey) (prompt : option string)
  (aspectRatio : AspectRatio) (refImage : option string) : M unit :=
  updateImageState k (set_loading prompt) ;;
  try_catch
    (base64Image <- generateImage prompt aspectRatio refImage ;;
     updateImageState k (set_success base64Image))
    (fun _ => updateImageState k (set_error "Generation failed.")).

(** [visualPrompts.platforms[k]] *)
Definition platform_prompt (visualPrompts : VisualPrompts) (k : PlatformKey)
  : M (option string) :=
  match platforms visualPrompts with
  | Some entries => ret (entries k)
  | None => throw (new_Error "Cannot read properties of undefined")
  end.

(** The guard of [handleGenerateAll]: [!userInput.trim() && !selectedImage]. *)
Definition nothing_to_generate (userInput : string) (selectedImage : option string) : bool :=
  negb (JsString.truthy (JsString.trim userInput)) && negb (truthy_opt selectedImage).

Definition reset_all : M unit :=
  forEach PLATFORMS (fun p => updateImageState (key p) set_idle).

Definition plan_all (visualPrompts : VisualPrompts) : M unit :=
  forEach PLATFORMS
    (fun p =>
       prompt <- platform_prompt visualPrompts (key p) ;;
       updateImageState (key p) (set_loading prompt)).

Definition render_step (visualPrompts : VisualPrompts)
  (selectedImage : option string) (platform : PlatformConfig) : M unit :=
  prompt <- platform_prompt visualPrompts (key platform) ;;
  triggerImageGeneration (key platform) prompt (apiAspectRatio platform)
    (or_undefined selectedImage) ;;
  sleep 1500.

Definition render_all (visualPrompts : VisualPrompts) (selectedImage : option string)
  : M unit :=
  forEach PLATFORMS (render_step visualPrompts selectedImage).

Definition fail_all : M unit :=
  forEach PLATFORMS
    (fun p => updateImageState (key p) (set_error "Failed to analyze context.")).

Definition handleGenerateAll (userInput : string) (selectedImage : option string)
  : M unit :=
  if nothing_to_generate userInput selectedImage then ret tt
  else
    setIsAnalyzing true ;;
    reset_all ;;
    try_catch
      (visualPrompts <- generateVisualPrompts userInput (or_undefined selectedImage) ;;
       setIsAnalyzing false ;;
       plan_all visualPrompts ;;
       render_all visualPrompts selectedImage)
      (fun error =>
         console_error EmptyString error ;;
         setIsAnalyzing false ;;
         fail_all).

(** [handleRegenerateSingle] starts [triggerImageGeneration] without
    awaiting it; the run is followed to its end. *)
Definition handleRegenerateSingle (selectedImage : option string) (k : PlatformKey)
  : M unit :=
  fun w =>
    let currentState := get k (images w) in
    let platformConfig := find (fun p => PlatformKey_eqb (key p) k) PLATFORMS in
    match or_undefined (prompt currentState), platformConfig with
    | Some cached, Some cfg =>
        triggerImageGeneration k (Some cached) (apiAspectRatio cfg)
          (or_undefined selectedImage) w
    | _, _ => (Returned tt, w)
    end.

End Service.

(** ** What the properties are stated with *)

(** The store after the updates among [evs] have been applied to [i]. *)
Definition apply_event (i : Images) (e : Event) : Images :=
  match e with
  | EvSetImages k newState => set k (spread (get k i) newState) i
  | _ => i
  end.

Definition replay (i : Images) (evs : list Event) : Images :=
  fold_left apply_event evs i.

(** The events that a run from [w] to [w'] added to the log. *)
Definition events_since (w w' : World) : list Event :=
  skipn (List.length (log w)) (log w').

(** The events that come before the first backend request. *)
Fixpoint before_first_request (evs : list Event) : list Event :=
  match evs with
  | [] => []
  | EvRequest _ :: _ => []
  | e :: rest => e :: before_first_request rest
  end.

(** The store at the moment the first backend request of a run is made. *)
Definition images_at_first_request (w w' : World) : Images :=
  replay (images w) (before_first_request (events_since w w')).

(** A request to the image model. *)
Definition is_render_call (e : Event) : bool :=
  match e with
  | EvRequest req =>
      match config req with ImageConfig _ => true | PromptsConfig => false end
  | _ => false
  end.

(** What one call of [withRetry] around a backend operation may log: the
    request itself, again at every attempt, the notice and the wait of a
    backoff, and the error report of the operation. *)
Definition attempt_event (req : GenerateContentRequest) (e : Event) : Prop :=
  match e with
  | EvRequest r => r = req
  | EvTimeout _ | EvConsoleWarn _ _ _ | EvConsoleError _ _ => True
  | EvSetImages _ _ => False
  end.

(** The last update of [triggerImageGeneration]. *)
Definition render_outcome (newState : PartialImageState) : Prop :=
  newState = set_error "Generation failed."
  \/ exists url, url <> EmptyString /\ newState = set_success url.

(** The part of the log that belongs to one platform of the rendering loop:
    the platform is set to loading, its render is requested (once per
    attempt), its result is stored, and only then comes the pacing delay. *)
Definition render_segment (entries : PlatformKey -> option string)
  (selectedImage : option string) (p : PlatformConfig) (seg : list Event) : Prop :=
  exists body outcome,
    let req := image_request (entries (key p)) (apiAspectRatio p)
                 (or_undefined selectedImage) in
    seg = EvSetImages (key p) (set_loading (entries (key p)))
            :: EvRequest req
            :: body ++ [EvSetImages (key p) outcome; EvTimeout 1500]
    /\ Forall (attempt_event req) body
    /\ render_outcome outcome.

(** A platform whose generation has come to an end. *)
Definition settled (s : ImageState) : Prop :=
  (status s = success /\ exists url, imageUrl s = Some url /\ url <> EmptyString)
  \/ (status s = error /\ exists msg, errorMsg s = Some msg /\ msg <> EmptyString).

(** The prompt derivation call of a run of [handleGenerateAll] started in
    [w]: the call is made after the flag and the reset. *)
Definition derivation (backend : Backend) (JSON_parse : JsonParser)
  (userInput : string) (selectedImage : option string) (w : World)
  : Outcome VisualPrompts * World :=
  generateVisualPrompts backend JSON_parse userInput (or_undefined selectedImage)
    (snd ((setIsAnalyzing true ;; reset_all) w)).

(** The world once [withRetry] has logged its notice and waited [delay]. *)
Definition after_backoff (delay attempt retries : Z) (w : World) : World :=
  emit (EvTimeout delay) (emit (EvConsoleWarn delay attempt retries) w).

(** The time spent in awaited timeouts. *)
Fixpoint waited (evs : list Event) : Z :=
  match evs with
  | [] => 0
  | EvTimeout ms :: rest => ms + waited rest
  | _ :: rest => waited rest
  end.

(** The worlds that the user can bring about from the start of the
    application by pressing "generate" and "regenerate", whatever the
    backend answers. *)
Inductive reachable : World -> Prop :=
| reachable_start : reachable initial_world
| reachable_generateAll backend JSON_parse userInput selectedImage w :
    reachable w ->
    reachable (snd (handleGenerateAll backend JSON_parse userInput selectedImage w))
| reachable_regenerate backend selectedImage k w :
    reachable w ->
    reachable (snd (handleRegenerateSingle backend selectedImage k w)).

(** The image that the last successful render of platform [k] stored. *)
Definition last_render (k : PlatformKey) (evs : list Event) : option string :=
  fold_left
    (fun acc e =>
       match e with
       | EvSetImages k' newState =>
           match set_status newState, set_imageUrl newState with
           | Some success, Some url => if PlatformKey_eqb k' k then url else acc
           | _, _ => acc
           end
       | _ => acc
       end)
    evs None.

(** The updates that the pipeline performs. *)
Definition pipeline_update (newState : PartialImageState) : Prop :=
  newState = set_idle
  \/ (exists prompt, newState = set_loading prompt)
  \/ (exists url, url <> EmptyString /\ newState = set_success url)
  \/ (exists msg, msg <> EmptyString /\ newState = set_error msg).

Definition pipeline_event (e : Event) : Prop :=
  match e with
  | EvSetImages _ newState => pipeline_update newState
  | _ => True
  end.

(** The strings that [/^data:(.+);base64,(.+)$/] matches. *)
Definition matches_data_uri (s : string) : Prop :=
  exists m d,
    s = ("data:" ++ m ++ ";base64," ++ d)%string
    /\ m <> EmptyString /\ d <> EmptyString
    /\ JsString.noLineTerminator m = true
    /\ JsString.noLineTerminator d = true.

(** [w'] comes from [w] by logging events that satisfy [P], and nothing else
    has changed in the store. *)
Definition extends (P : Event -> Prop) (w w' : World) : Prop :=
  images w' = images w /\ exists evs, log w' = log w ++ evs /\ Forall P evs.

(** Every run of [m] only logs events that satisfy [P], leaves the store as
    it is, and returns values that satisfy [Q]. *)
Definition logs_only {A} (P : Event -> Prop) (Q : A -> Prop) (m : M A) : Prop :=
  forall w, extends P w (snd (m w)) /\ forall a, fst (m w) = Returned a -> Q a.

(** [m], run in [w], ends as [r] in [w'], has logged [evs], and the store of
    [w'] is the store of [w] after the updates of [evs]. *)
Definition steps {A} (m : M A) (w : World) (r : Outcome A) (evs : list Event)
  (w' : World) : Prop :=
  m w = (r, w') /\ log w' = log w ++ evs /\ images w' = replay (images w) evs.

(** The updates that [reset_all], [plan_all] and [fail_all] log. *)
Definition reset_events : list Event :=
  map (fun p => EvSetImages (key p) set_idle) PLATFORMS.

Definition plan_events (entries : PlatformKey -> option string) : list Event :=
  map (fun p => EvSetImages (key p) (set_loading (entries (key p)))) PLATFORMS.

Definition fail_events : list Event :=
  map (fun p => EvSetImages (key p) (set_error "Failed to analyze context.")) PLATFORMS.

(** The invariant of a record of the store. *)
Definition state_invariant (k : PlatformKey) (pre : list Event) (s : ImageState) : Prop :=
  (status s = success -> exists url, imageUrl s = Some url /\ url <> EmptyString)
  /\ (status s = error -> exists msg, errorMsg s = Some msg /\ msg <> EmptyString)
  /\ imageUrl s = last_render k pre.

(** ** Backends and inputs used in the examples *)

Module Fixtures.

Definition png : ResponsePart :=
  {| part_inlineData := Some {| r_mimeType := Some "image/png"; r_data := Some "iVBOR" |} |}.

Definition answer : GenerateContentResponse :=
  {| response_text := Some "{}"; response_parts := Some [png] |}.

Definition no_content : GenerateContentResponse :=
  {| response_text := Some "{}"; response_parts := None |}.

Definition rate_limited : Thrown :=
  Some {| JsError.status := VNumber 429; JsError.code := VUndefined;
          JsError.message := Some "Too Many Requests"; JsError.error := None |}.

(** Answers every request. *)
Definition good_backend : Backend := fun _ _ => Returned answer.

(** Answers the prompt derivation, and returns no image content. *)
Definition no_image_backend : Backend := fun _ _ => Returned no_content.

(** Refuses every request with an error that is not a quota error. *)
Definition down_backend : Backend :=
  fun _ _ => Threw (new_Error "Service unavailable").

Definition requests_so_far (l : list Event) : nat :=
  List.length (filter (fun e => match e with EvRequest _ => true | _ => false end) l).

(** Refuses the first two requests of the log with HTTP 429. *)
Definition quota_twice_backend : Backend :=
  fun l _ => if (requests_so_far l <? 2)%nat then Threw rate_limited else Returned answer.

Definition prompts : VisualPrompts :=
  {| visualStyleSeed := Some "soft light, pastel";
     platforms := Some (fun k =>
       match k with
       | linkedin => Some "cover, subject in the right third"
       | twitter => Some "header, subject centred"
       | instagram => Some "square, subject centred"
       | blog => Some "wide shot, bottom clear"
       end) |}.

Definition parser : JsonParser := fun _ => Returned prompts.

Definition context : string :=
  "Minimalist eco-friendly packaging for organic skincare".

(** A first full run in which no image could be rendered. *)
Definition after_failed_renders : World :=
  snd (handleGenerateAll no_image_backend parser context None initial_world).

(** Then the user regenerates the LinkedIn cover, and the render works. *)
Definition after_regenerate : World :=
  snd (handleRegenerateSingle good_backend None linkedin after_failed_renders).

(** A first full run in which every render worked. *)
Definition after_good_run : World :=
  snd (handleGenerateAll good_backend parser context None initial_world).

(** A second full run, started from there. *)
Definition after_second_run : World :=
  snd (handleGenerateAll good_backend parser context None after_good_run).

End Fixtures.

(** ** App.tsx: the bundle of [handleDownloadAll] *)

(** [s.split(sep)] for a separator of one character: the pieces between the
    separators, one more than there are separators. *)
Fixpoint js_split (sep : ascii) (s : string) : list string :=
  match s with
  | EmptyString => [EmptyString]
  | String c s' =>
      if Ascii.eqb c sep then EmptyString :: js_split sep s'
      else
        match js_split sep s' with
        | piece :: pieces => String c piece :: pieces
        | [] => [String c EmptyString]
        end
  end.

(** A platform key as the string it is at run time. *)
Definition key_string (k : PlatformKey) : string :=
  match k with
  | linkedin => "linkedin"
  | twitter => "twitter"
  | instagram => "instagram"
  | blog => "blog"
  end.

(** [`${n}`] for an integer, [Date.now()] here. *)
Definition number_string (n : Z) : string :=
  NilZero.string_of_int (Z.to_int n).

Record ZipFile := { file_name : string; file_data : string }.

(** [zip.file(name, data, { base64: true })]: a file of that name is
    replaced. *)
Definition zip_file (name data : string) (zip : list ZipFile) : list ZipFile :=
  filter (fun f => negb (String.eqb (file_name f) name)) zip
    ++ [{| file_name := name; file_data := data |}].

(** [imgState.imageUrl.split(',')[1]] under the two tests of the loop:
    the state is a success with an image, and the piece is not empty. *)
Definition bundle_payload (imgState : ImageState) : option string :=
  match status imgState, or_undefined (imageUrl imgState) with
  | success, Some url => or_undefined (nth_error (js_split "," url) 1)
  | _, _ => None
  end.

Definition bundle_file_name (k : PlatformKey) (timestamp : Z) : string :=
  ("creator-studio-" ++ key_string k ++ "-" ++ number_string timestamp ++ ".png")%string.

(** The body of the [forEach] of [handleDownloadAll], on the archive and
    the counter. *)
Definition bundle_step (images : Images) (timestamp : Z)
  (acc : list ZipFile * Z) (platform : PlatformConfig) : list ZipFile * Z :=
  match bundle_payload (get (key platform) images) with
  | Some base64Data =>
      (zip_file (bundle_file_name (key platform) timestamp) base64Data (fst acc),
       snd acc + 1)
  | None => acc
  end.

Record Download := { download : string; content : list ZipFile }.

(** [handleDownloadAll], up to the generation of the archive: the archive
    that is handed to [zip.generateAsync] and the name under which it is
    offered, or [None] when nothing is generated.  [timestamp] is
    [Date.now()]. *)
Definition handleDownloadAll (images : Images) (timestamp : Z) : option Download :=
  let (zip, count) := fold_left (bundle_step images timestamp) PLATFORMS ([], 0) in
  if 0 <? count then
    Some {| download :=
              ("creator-studio-assets-" ++ number_string timestamp ++ ".zip")%string;
            content := zip |}
  else None.


(** [Object.values(images).some(img => img.status === 'success')] *)
Definition hasSuccessfulImages (images : Images) : bool :=
  existsb (fun img => match status img with success => true | _ => false end)
    [at_linkedin images; at_twitter images; at_instagram images; at_blog images].

(** ** Button.tsx and the buttons of App.tsx and ImageCard.tsx *)

(** The [disabled] attribute that [Button] gives its [button]. *)
Definition Button_disabled (disabled isLoading : bool) : bool :=
  disabled || isLoading.

(** The "Generate Assets" button of [App]. *)
Definition generate_disabled (userInput : string) (selectedImage : option string)
  (w : World) : bool :=
  Button_disabled (nothing_to_generate userInput selectedImage) (isAnalyzing w).

(** The "Regenerate" button of a card: whether it is rendered, and whether
    it can be clicked. *)
Definition regenerate_rendered (state : ImageState) : bool :=
  match status state with
  | success | error => true
  | loading => truthy_opt (prompt state)
  | idle => false
  end.

Definition regenerate_enabled (state : ImageState) : bool :=
  regenerate_rendered state
  && negb (Button_disabled
             (match status state with loading => true | _ => false end) false).

(** ** ImageCard.tsx: the filters *)

Record Filter := { id : string; filter_label : string; filter_css : string }.

Definition FILTERS : list Filter :=
  [ {| id := "none"; filter_label := "Normal"; filter_css := "none" |};
    {| id := "bw"; filter_label := "B&W"; filter_css := "grayscale(100%)" |};
    {| id := "sepia"; filter_label := "Sepia"; filter_css := "sepia(80%)" |};
    {| id := "vibrant"; filter_label := "Vibrant";
       filter_css := "saturate(150%) contrast(110%)" |};
    {| id := "cinematic"; filter_label := "Cinema";
       filter_css := "contrast(120%) brightness(90%) sepia(20%)" |} ].

(** [FILTERS.find(f => f.id === activeFilterId) || FILTERS[0]] *)
Definition activeFilter (activeFilterId : string) : Filter :=
  match find (fun f => String.eqb (id f) activeFilterId) FILTERS with
  | Some f => f
  | None => hd {| id := "none"; filter_label := "Normal"; filter_css := "none" |} FILTERS
  end.

(** Whether [handleDownload] sets [ctx.filter] before it draws. *)
Definition download_applies_filter (activeFilterId : string) : bool :=
  negb (String.eqb (filter_css (activeFilter activeFilterId)) "none").

(** ** More of what the properties are stated with *)

(** The events that come before the first request to the image model, and
    the store at the moment of that request. *)
Fixpoint before_first_render (evs : list Event) : list Event :=
  match evs with
  | [] => []
  | e :: rest => if is_render_call e then [] else e :: before_first_render rest
  end.

Definition images_at_first_render (w w' : World) : Images :=
  replay (images w) (before_first_render (events_since w w')).

(** The two messages that the pipeline stores. *)
Definition pipeline_message (msg : string) : Prop :=
  msg = "Generation failed." \/ msg = "Failed to analyze context.".

(** The number of backend requests among [evs]. *)
Fixpoint requests (evs : list Event) : Z :=
  match evs with
  | [] => 0
  | EvRequest _ :: rest => 1 + requests rest
  | _ :: rest => requests rest
  end.

(** Every run of [m] makes at most [R] requests and waits at most [W] ms. *)
Definition costs {A} (R W : Z) (m : M A) : Prop :=
  forall w,
    requests (log (snd (m w))) <= requests (log w) + R
    /\ waited (log (snd (m w))) <= waited (log w) + W.

(** No run of [m] changes the [isAnalyzing] flag. *)
Definition flag_stable {A} (m : M A) : Prop :=
  forall w, isAnalyzing (snd (m w)) = isAnalyzing w.

(** The characters of [s] are all white space. *)
Fixpoint all_white_space (s : string) : bool :=
  match s with
  | EmptyString => true
  | String c s' => JsString.isWhiteSpace c && all_white_space s'
  end.

(** [c] does not occur in [s]. *)
Fixpoint free_of (c : ascii) (s : string) : bool :=
  match s with
  | EmptyString => true
  | String a s' => negb (Ascii.eqb a c) && free_of c s'
  end.

(** A response part that carries an image: [part.inlineData &&
    part.inlineData.data]. *)
Definition carries_image (part : ResponsePart) : bool :=
  match part_inlineData part with
  | Some d => truthy_opt (r_data d)
  | None => false
  end.

(** The data URI that [generateImage] makes of such a part. *)
Definition data_uri (part : ResponsePart) : string :=
  match part_inlineData part with
  | Some d => ("data:" ++ template (r_mimeType d) ++ ";base64," ++ template (r_data d))%string
  | None => EmptyString
  end.

(** Backends used in the examples of the later properties. *)
Module Samples.

(** Refuses every request with HTTP 429. *)
Definition always_limited_backend : Backend :=
  fun _ _ => Threw Fixtures.rate_limited.

(** Refuses two requests out of three with HTTP 429. *)
Definition grudging_backend : Backend :=
  fun l _ =>
    if (Nat.modulo (Fixtures.requests_so_far l) 3 =? 2)%nat
    then Returned Fixtures.answer
    else Threw Fixtures.rate_limited.

(** The prompts of [Fixtures.prompts]. *)
Definition entries (k : PlatformKey) : option string :=
  match k with
  | linkedin => Some "cover, subject in the right third"
  | twitter => Some "header, subject centred"
  | instagram => Some "square, subject centred"
  | blog => Some "wide shot, bottom clear"
  end.

(** A store in which two platforms have an image. *)
Definition two_images : Images :=
  {| at_linkedin :=
       {| status := success; imageUrl := Some "data:image/png;base64,iVBOR";
          prompt := Some "cover"; errorMsg := None |};
     at_twitter :=
       {| status := error; imageUrl := Some "data:image/png;base64,AAAA";
          prompt := Some "header"; errorMsg := Some "Generation failed." |};
     at_instagram := idle_state;
     at_blog :=
       {| status := success; imageUrl := Some "data:image/jpeg;base64,/9j/4A";
          prompt := Some "wide"; errorMsg := None |} |}.

End Samples.

(** * Properties *)

(** ** Strings and parseBase64 *)

Example trim_spaces : JsString.trim "  new  launch  " = "new  launch".
Proof. reflexivity. Qed.

Example trim_only_white_space : JsString.trim "   " = EmptyString.
Proof. reflexivity. Qed.

Example parseBase64_png :
  parseBase64 "data:image/png;base64,iVBOR" =
  Some {| mimeType := "image/png"; data := "iVBOR" |}.
Proof. reflexivity. Qed.

Example parseBase64_greedy :
  parseBase64 "data:a;base64,b;base64,c" =
  Some {| mimeType := "a;base64,b"; data := "c" |}.
Proof. reflexivity. Qed.

Example parseBase64_backtracks :
  parseBase64 "data:a;base64,b;base64," =
  Some {| mimeType := "a"; data := "b;base64," |}.
Proof. reflexivity. Qed.

Example parseBase64_plain_url : parseBase64 "https://example.org/a.png" = None.
Proof. reflexivity. Qed.

Example parseBase64_empty_payload : parseBase64 "data:image/png;base64," = None.
Proof. reflexivity. Qed.

Example isQuotaError_status : isQuotaError Fixtures.rate_limited = true.
Proof. reflexivity. Qed.

Example isQuotaError_message :
  isQuotaError (new_Error "You exceeded your current quota") = true.
Proof. reflexivity. Qed.

Example isQuotaError_other : isQuotaError (new_Error "No content parts returned") = false.
Proof. reflexivity. Qed.

Example isQuotaError_undefined : isQuotaError None = false.
Proof. reflexivity. Qed.

Lemma startsWith_split (p s : string) :
  JsString.startsWith p s = true ->
  s = (p ++ JsString.drop (String.length p) s)%string.
Proof.
  revert s; induction p as [|a p IH]; intros s H.
  - reflexivity.
  - destruct s as [|b s]; simpl in H; [discriminate|].
    apply andb_true_iff in H as [Hab Hp].
    apply Ascii.eqb_eq in Hab; subst b.
    simpl. f_equal. now apply IH.
Qed.

Lemma startsWith_append (p s : string) :
  JsString.startsWith p (p ++ s)%string = true.
Proof.
  induction p as [|a p IH]; simpl; [reflexivity|].
  now rewrite Ascii.eqb_refl, IH.
Qed.

Lemma drop_append (p s : string) :
  JsString.drop (String.length p) (p ++ s)%string = s.
Proof. induction p as [|a p IH]; simpl; auto. Qed.

Lemma truthy_nonempty (s : string) : JsString.truthy s = true <-> s <> EmptyString.
Proof. destruct s; simpl; split; congruence. Qed.

Lemma noLineTerminator_append (a b : string) :
  JsString.noLineTerminator (a ++ b)%string =
  JsString.noLineTerminator a && JsString.noLineTerminator b.
Proof.
  induction a as [|c a IH]; simpl; [reflexivity|].
  now rewrite IH, andb_assoc.
Qed.

Lemma match_groups_sound (s m d : string) :
  match_groups s = Some (m, d) ->
  s = (m ++ base64_marker ++ d)%string /\ m <> EmptyString /\ d <> EmptyString.
Proof.
  revert m d; induction s as [|c s IH]; intros m d H;
    cbn [match_groups] in H; [discriminate|].
  destruct (match_groups s) as [[m' d']|] eqn:E.
  - injection H as <- <-.
    destruct (IH _ _ eq_refl) as (-> & _ & Hd).
    split; [reflexivity|]. split; [discriminate | exact Hd].
  - destruct (JsString.startsWith base64_marker s) eqn:Hp;
      cbn [andb] in H; [|discriminate].
    destruct (JsString.truthy (JsString.drop 8 s)) eqn:Ht; [|discriminate].
    injection H as <- <-.
    split; [|split; [discriminate | now apply truthy_nonempty]].
    simpl. f_equal. exact (startsWith_split _ _ Hp).
Qed.

Lemma match_groups_complete (m d : string) :
  m <> EmptyString -> d <> EmptyString -> match_groups (m ++ base64_marker ++ d)%string <> None.
Proof.
  induction m as [|c m IH]; intros Hm Hd; [congruence|].
  cbn [append match_groups].
  destruct (match_groups (m ++ base64_marker ++ d)%string) as [[m' d']|] eqn:E;
    [discriminate|].
  destruct m as [|c' m].
  - change (EmptyString ++ base64_marker ++ d)%string with (base64_marker ++ d)%string.
    rewrite startsWith_append.
    change 8%nat with (String.length base64_marker).
    rewrite drop_append.
    apply truthy_nonempty in Hd. rewrite Hd. discriminate.
  - exfalso. apply IH; [discriminate | exact Hd | reflexivity].
Qed.

(** [parseBase64] accepts exactly the strings that the regular expression
    matches. *)
Lemma parseBase64_matches (s : string) :
  parseBase64 s <> None <-> matches_data_uri s.
Proof.
  unfold parseBase64, matches_data_uri. split.
  - destruct (JsString.startsWith "data:" s) eqn:Hp; [|congruence].
    destruct (JsString.noLineTerminator (JsString.drop 5 s)) eqn:Hn; [|congruence].
    destruct (match_groups (JsString.drop 5 s)) as [[m d]|] eqn:Hg; [|congruence].
    intros _. exists m, d.
    apply match_groups_sound in Hg as (Hs & Hm & Hd).
    rewrite Hs in Hn.
    rewrite !noLineTerminator_append in Hn.
    apply andb_true_iff in Hn as [Hnm Hn].
    apply andb_true_iff in Hn as [_ Hnd].
    repeat split; auto.
    rewrite (startsWith_split _ _ Hp) at 1.
    change (String.length "data:") with 5%nat. now rewrite Hs.
  - intros (m & d & -> & Hm & Hd & Hnm & Hnd).
    rewrite startsWith_append.
    change 5%nat with (String.length "data:"). rewrite drop_append.
    rewrite !noLineTerminator_append, Hnm, Hnd. simpl.
    pose proof (match_groups_complete m d Hm Hd) as Hc.
    unfold base64_marker in Hc. simpl in Hc.
    destruct (match_groups _) as [[m' d']|]; congruence.
Qed.

Lemma request_parts_unmatched (text : option string) (img : string) :
  ~ matches_data_uri img -> request_parts text (Some img) = [TextPart text].
Proof.
  intros H. unfold request_parts, or_undefined.
  destruct (JsString.truthy img); [|reflexivity].
  destruct (parseBase64 img) eqn:E; [|reflexivity].
  exfalso. apply H, parseBase64_matches. congruence.
Qed.

(** ** The log of a computation *)

Lemma extends_refl P w : extends P w w.
Proof. split; [reflexivity|]. exists []. now rewrite app_nil_r. Qed.

Lemma extends_trans P w1 w2 w3 :
  extends P w1 w2 -> extends P w2 w3 -> extends P w1 w3.
Proof.
  intros (Hi1 & e1 & Hl1 & Hp1) (Hi2 & e2 & Hl2 & Hp2). split; [congruence|].
  exists (e1 ++ e2). rewrite Hl2, Hl1, app_assoc. split; [reflexivity|].
  apply Forall_app; auto.
Qed.

Lemma extends_emit (P : Event -> Prop) e w : P e -> extends P w (emit e w).
Proof. intros H. split; [reflexivity|]. exists [e]. auto. Qed.

Section Retry.

Context {T : Type}.
Variable operation : M T.
Variables retries initialDelay : Z.

Lemma withRetry_from_step remaining i lastError w :
  withRetry_from operation retries initialDelay (S remaining) i lastError w =
  match operation w with
  | (Returned a, w') => (Returned a, w')
  | (Threw e, w') =>
      if isQuotaError e && (i <? retries - 1)
      then withRetry_from operation retries initialDelay remaining (i + 1) e
             (after_backoff (initialDelay * 2 ^ i) (i + 1) retries w')
      else (Threw e, w')
  end.
Proof.
  cbn [withRetry_from]. unfold try_catch.
  destruct (operation w) as [[a|e] w']; [reflexivity|].
  destruct (isQuotaError e && (i <? retries - 1)); reflexivity.
Qed.

Lemma withRetry_from_logs_only (P : Event -> Prop) (Q : T -> Prop) :
  logs_only P Q operation ->
  (forall d a r, P (EvConsoleWarn d a r)) ->
  (forall ms, P (EvTimeout ms)) ->
  forall remaining i lastError,
    logs_only P Q (withRetry_from operation retries initialDelay remaining i lastError).
Proof.
  intros Hop Hwarn Hwait.
  induction remaining as [|n IH]; intros i lastError w.
  - split; [apply extends_refl | discriminate].
  - rewrite withRetry_from_step.
    destruct (Hop w) as [Hext Hq].
    destruct (operation w) as [[a|e] w'] eqn:E; cbn [fst snd] in *.
    + split; [exact Hext | exact Hq].
    + destruct (isQuotaError e && (i <? retries - 1)).
      * destruct (IH (i + 1) e
                    (after_backoff (initialDelay * 2 ^ i) (i + 1) retries w'))
          as [Hext' Hq'].
        split; [|exact Hq'].
        eapply extends_trans; [exact Hext|].
        eapply extends_trans; [|exact Hext'].
        unfold after_backoff.
        eapply extends_trans; apply extends_emit; auto.
      * split; [exact Hext | discriminate].
Qed.

(** When every run of the operation starts by logging [first], so does a
    call of [withRetry] with at least one attempt. *)
Lemma withRetry_first_event (P : Event -> Prop) (Q : T -> Prop) (first : Event) :
  (forall w, images (snd (operation w)) = images w
             /\ (exists tail, log (snd (operation w)) = log w ++ first :: tail
                              /\ Forall P tail)
             /\ forall a, fst (operation w) = Returned a -> Q a) ->
  P first ->
  (forall d a r, P (EvConsoleWarn d a r)) ->
  (forall ms, P (EvTimeout ms)) ->
  1 <= retries ->
  forall w,
    images (snd (withRetry operation retries initialDelay w)) = images w
    /\ (exists tail,
           log (snd (withRetry operation retries initialDelay w))
           = log w ++ first :: tail
           /\ Forall P tail)
    /\ forall a, fst (withRetry operation retries initialDelay w) = Returned a -> Q a.
Proof.
  intros Hop Hfirst Hwarn Hwait Hretries w.
  assert (Hlogs : logs_only P Q operation).
  { intros w0. destruct (Hop w0) as (Hi & (tail & Hl & Ht) & Hq).
    split; [|exact Hq]. split; [exact Hi|].
    exists (first :: tail). auto. }
  unfold withRetry.
  destruct (Z.to_nat retries) as [|n] eqn:En; [lia|].
  rewrite withRetry_from_step.
  destruct (Hop w) as (Hi & (tail & Hl & Ht) & Hq).
  destruct (operation w) as [[a|e] w'] eqn:E; cbn [fst snd] in *.
  - split; [exact Hi|]. split; [eauto | exact Hq].
  - destruct (isQuotaError e && (0 <? retries - 1)).
    + destruct (withRetry_from_logs_only P Q Hlogs Hwarn Hwait n (0 + 1) e
                  (after_backoff (initialDelay * 2 ^ 0) (0 + 1) retries w'))
        as [(Hi' & evs & Hl' & He') Hq'].
      split; [rewrite Hi'; exact Hi|].
      split; [|exact Hq'].
      exists (tail ++ [EvConsoleWarn (initialDelay * 2 ^ 0) (0 + 1) retries;
                       EvTimeout (initialDelay * 2 ^ 0)] ++ evs).
      split.
      * rewrite Hl'. unfold after_backoff, emit. cbn [log]. rewrite Hl.
        rewrite <- !app_assoc. reflexivity.
      * apply Forall_app. split; [exact Ht|].
        apply Forall_app. split; [|exact He'].
        repeat constructor; auto.
    + split; [exact Hi|]. split; [eauto | discriminate].
Qed.

End Retry.

Lemma waited_app (a b : list Event) : waited (a ++ b) = waited a + waited b.
Proof.
  induction a as [|e a IH]; simpl; [reflexivity|].
  destruct e; rewrite ?IH; lia.
Qed.

Lemma waited_after_backoff delay attempt retries w :
  waited (log (after_backoff delay attempt retries w)) = waited (log w) + delay.
Proof.
  unfold after_backoff, emit. cbn [log].
  rewrite !waited_app. simpl. lia.
Qed.

(** C3. An operation that fails with a quota error at its first and at its
    second invocation and returns at its third: [withRetry] with three
    attempts returns that value.  The second invocation is made in the world
    left by the first after the notice and a wait of [initialDelay], the
    third after a wait of [initialDelay * 2]; when the operation does not
    wait itself, the call has waited [initialDelay + initialDelay * 2] in
    all. *)
Theorem withRetry_succeeds_on_third_attempt
  (T : Type) (operation : M T) (initialDelay : Z)
  (w0 w1 w2 w3 : World) (e1 e2 : Thrown) (v : T) :
  operation w0 = (Threw e1, w1) ->
  isQuotaError e1 = true ->
  operation (after_backoff initialDelay 1 3 w1) = (Threw e2, w2) ->
  isQuotaError e2 = true ->
  operation (after_backoff (initialDelay * 2) 2 3 w2) = (Returned v, w3) ->
  withRetry operation 3 initialDelay w0 = (Returned v, w3)
  /\ ((forall w, waited (log (snd (operation w))) = waited (log w)) ->
      waited (log w3) = waited (log w0) + (initialDelay + initialDelay * 2)).
Proof.
  intros H1 Q1 H2 Q2 H3. split.
  - unfold withRetry. change (Z.to_nat 3) with 3%nat.
    rewrite withRetry_from_step, H1, Q1.
    change (0 <? 3 - 1) with true. cbn [andb].
    change (2 ^ 0) with 1. change (0 + 1) with 1. rewrite Z.mul_1_r.
    rewrite withRetry_from_step, H2, Q2.
    change (1 <? 3 - 1) with true. cbn [andb].
    change (2 ^ 1) with 2. change (1 + 1) with 2.
    rewrite withRetry_from_step, H3. reflexivity.
  - intros Hquiet.
    pose proof (Hquiet w0) as A1. rewrite H1 in A1.
    pose proof (Hquiet (after_backoff initialDelay 1 3 w1)) as A2. rewrite H2 in A2.
    pose proof (Hquiet (after_backoff (initialDelay * 2) 2 3 w2)) as A3.
    rewrite H3 in A3. cbn [snd] in *.
    rewrite waited_after_backoff in A2, A3. lia.
Qed.

(** C4. An operation whose first invocation fails with an error that is
    not a quota error: [withRetry], with any number [retries >= 1] of
    attempts and any delay, ends with that error in the very world that this
    one invocation left: nothing was logged, waited for or invoked after
    it. *)
Theorem withRetry_other_error_not_retried
  (T : Type) (operation : M T) (retries initialDelay : Z)
  (w w1 : World) (e : Thrown) :
  1 <= retries ->
  operation w = (Threw e, w1) ->
  isQuotaError e = false ->
  withRetry operation retries initialDelay w = (Threw e, w1).
Proof.
  intros Hr Hop Hq. unfold withRetry.
  destruct (Z.to_nat retries) as [|n] eqn:En; [lia|].
  rewrite withRetry_from_step, Hop, Hq. reflexivity.
Qed.

(** Without any attempt the operation is not invoked at all, and the
    [undefined] that [lastError] still holds is thrown. *)
Lemma withRetry_no_attempt
  (T : Type) (operation : M T) (retries initialDelay : Z) (w : World) :
  retries <= 0 -> withRetry operation retries initialDelay w = (Threw None, w).
Proof.
  intros Hr. unfold withRetry.
  destruct (Z.to_nat retries) eqn:En; [reflexivity | lia].
Qed.

Lemma generateContent_does_not_wait backend req w :
  waited (log (snd (generateContent backend req w))) = waited (log w).
Proof.
  unfold generateContent, emit. cbn [snd log].
  rewrite waited_app. simpl. lia.
Qed.

Lemma withRetry_succeeds_on_third_attempt_witness :
  let req := image_request (Some "logo") Ratio_1_1 None in
  let operation := generateContent Fixtures.quota_twice_backend req in
  let w3 :=
    {| images := initial_images; isAnalyzing := false;
       log := [EvRequest req; EvConsoleWarn 500 1 3; EvTimeout 500;
               EvRequest req; EvConsoleWarn 1000 2 3; EvTimeout 1000;
               EvRequest req] |} in
  withRetry operation 3 500 initial_world = (Returned Fixtures.answer, w3)
  /\ waited (log w3) = waited (log initial_world) + (500 + 500 * 2).
Proof.
  intros req operation w3.
  destruct (withRetry_succeeds_on_third_attempt _ operation 500
              initial_world
              (emit (EvRequest req) initial_world)
              (emit (EvRequest req)
                 (after_backoff 500 1 3 (emit (EvRequest req) initial_world)))
              w3 Fixtures.rate_limited Fixtures.rate_limited Fixtures.answer)
    as [Hrun Hwait]; try reflexivity.
  split; [exact Hrun|].
  apply Hwait. intros w. apply generateContent_does_not_wait.
Defined.

Lemma withRetry_other_error_not_retried_witness :
  let req := image_request (Some "logo") Ratio_1_1 None in
  withRetry (generateContent Fixtures.down_backend req) 3 2000 initial_world
  = (Threw (new_Error "Service unavailable"), emit (EvRequest req) initial_world).
Proof.
  intros req.
  apply withRetry_other_error_not_retried; [lia | reflexivity | reflexivity].
Defined.

(** ** Runs of the pipeline *)

Lemma get_set_same k v i : get k (set k v i) = v.
Proof. destruct k; reflexivity. Qed.

Lemma get_set_other k k' v i : k' <> k -> get k' (set k v i) = get k' i.
Proof. destruct k, k'; intros H; try reflexivity; congruence. Qed.

Lemma PlatformKey_eqb_eq a b : PlatformKey_eqb a b = true <-> a = b.
Proof. destruct a, b; simpl; split; congruence. Qed.

Lemma PlatformKey_eq_dec (a b : PlatformKey) : {a = b} + {a <> b}.
Proof. decide equality. Defined.

Lemma replay_app i a b : replay i (a ++ b) = replay (replay i a) b.
Proof. apply fold_left_app. Qed.

Lemma replay_attempt_events req evs i :
  Forall (attempt_event req) evs -> replay i evs = i.
Proof.
  intros H; revert i; induction H as [|e evs He _ IH]; intros i; [reflexivity|].
  simpl. destruct e; simpl in He; try contradiction; apply IH.
Qed.

Lemma steps_bind {A B} (m : M A) (k : A -> M B) w a e1 w1 r e2 w2 evs :
  steps m w (Returned a) e1 w1 -> steps (k a) w1 r e2 w2 ->
  evs = e1 ++ e2 ->
  steps (bind m k) w r evs w2.
Proof.
  intros (H1 & L1 & I1) (H2 & L2 & I2) ->. unfold steps, bind.
  rewrite H1, H2, L2, L1, I2, I1, app_assoc, replay_app. auto.
Qed.

Lemma steps_bind_throw {A B} (m : M A) (k : A -> M B) w e e1 w1 :
  steps m w (Threw e) e1 w1 -> steps (bind m k) w (Threw e) e1 w1.
Proof.
  intros (H1 & L1 & I1). unfold steps, bind. rewrite H1. auto.
Qed.

Lemma steps_try_returned {A} (m : M A) handler w a e1 w1 :
  steps m w (Returned a) e1 w1 -> steps (try_catch m handler) w (Returned a) e1 w1.
Proof.
  intros (H1 & L1 & I1). unfold steps, try_catch. rewrite H1. auto.
Qed.

Lemma steps_try_threw {A} (m : M A) handler w e e1 w1 r e2 w2 evs :
  steps m w (Threw e) e1 w1 -> steps (handler e) w1 r e2 w2 ->
  evs = e1 ++ e2 ->
  steps (try_catch m handler) w r evs w2.
Proof.
  intros (H1 & L1 & I1) (H2 & L2 & I2) ->. unfold steps, try_catch.
  rewrite H1, H2, L2, L1, I2, I1, app_assoc, replay_app. auto.
Qed.

(** [run_with H] runs the first computation of a sequence as [H] says. *)
Ltac run_with H :=
  first [ eapply steps_bind; [exact H | | ]
        | eapply steps_try_threw; [exact H | | ]
        | eapply steps_bind_throw; exact H
        | eapply steps_try_returned; exact H
        | exact H ].

Lemma steps_ret {A} (a : A) w : steps (ret a) w (Returned a) [] w.
Proof. unfold steps, ret. now rewrite app_nil_r. Qed.

Lemma steps_throw {A} e w : steps (@throw A e) w (Threw e) [] w.
Proof. unfold steps, throw. now rewrite app_nil_r. Qed.

Lemma steps_updateImageState k newState w :
  exists w', steps (updateImageState k newState) w (Returned tt)
               [EvSetImages k newState] w'.
Proof. eexists. unfold steps, updateImageState, act. simpl. auto. Qed.

Lemma steps_setIsAnalyzing b w :
  exists w', steps (setIsAnalyzing b) w (Returned tt) [] w'.
Proof.
  eexists. unfold steps, setIsAnalyzing, act. simpl.
  now rewrite app_nil_r.
Qed.

Lemma steps_sleep ms w :
  exists w', steps (sleep ms) w (Returned tt) [EvTimeout ms] w'.
Proof. eexists. unfold steps, sleep, act, emit. simpl. auto. Qed.

Lemma steps_console_error what e w :
  exists w', steps (console_error what e) w (Returned tt) [EvConsoleError what e] w'.
Proof. eexists. unfold steps, console_error, act, emit. simpl. auto. Qed.

(** A [forEach] whose body is one update per platform. *)
Lemma steps_forEach_update (f : PlatformConfig -> PartialImageState) l w :
  exists w', steps (forEach l (fun p => updateImageState (key p) (f p))) w (Returned tt)
               (map (fun p => EvSetImages (key p) (f p)) l) w'.
Proof.
  revert w; induction l as [|p l IH]; intros w.
  - exists w. apply steps_ret.
  - destruct (steps_updateImageState (key p) (f p) w) as [w1 H1].
    destruct (IH w1) as [w2 H2].
    exists w2. run_with H1; [exact H2 | reflexivity].
Qed.

Lemma first_image_nonempty responseParts url :
  first_image responseParts = Some url -> url <> EmptyString.
Proof.
  induction responseParts as [|part rest IH]; simpl; [discriminate|].
  destruct (part_inlineData part) as [d|]; [|exact IH].
  destruct (truthy_opt (r_data d)); [|exact IH].
  intros [= <-]. discriminate.
Qed.

Section Runs.

Variable backend : Backend.
Variable JSON_parse : JsonParser.

Lemma imageOperation_run prompt aspectRatio referenceImage w :
  let req := image_request prompt aspectRatio referenceImage in
  let run := imageOperation backend prompt aspectRatio referenceImage w in
  images (snd run) = images w
  /\ (exists tail, log (snd run) = log w ++ EvRequest req :: tail
                   /\ Forall (attempt_event req) tail)
  /\ forall url, fst run = Returned url -> url <> EmptyString.
Proof.
  intros req run. subst run.
  unfold imageOperation, try_catch, bind, generateContent. fold req.
  destruct (backend (log w) req) as [response|e].
  - destruct (response_parts response) as [responseParts|].
    + destruct (first_image responseParts) as [url|] eqn:E.
      * split; [reflexivity|]. split.
        -- exists []. auto.
        -- intros u [= <-]. eapply first_image_nonempty; eauto.
      * split; [reflexivity|]. split; [|discriminate].
        eexists [_]. simpl. rewrite <- app_assoc. split; [reflexivity|].
        repeat constructor.
    + split; [reflexivity|]. split; [|discriminate].
      eexists [_]. simpl. rewrite <- app_assoc. split; [reflexivity|].
      repeat constructor.
  - split; [reflexivity|]. split; [|discriminate].
    eexists [_]. simpl. rewrite <- app_assoc. split; [reflexivity|].
    repeat constructor.
Qed.

Lemma promptsOperation_run userContext imageBase64 w :
  let req := prompts_request userContext imageBase64 in
  let run := promptsOperation backend JSON_parse userContext imageBase64 w in
  images (snd run) = images w
  /\ (exists tail, log (snd run) = log w ++ EvRequest req :: tail
                   /\ Forall (attempt_event req) tail)
  /\ forall v, fst run = Returned v -> True.
Proof.
  intros req run. subst run.
  unfold promptsOperation, try_catch, bind, generateContent. fold req.
  destruct (backend (log w) req) as [response|e].
  - destruct (or_undefined (response_text response)) as [text|].
    + destruct (JSON_parse text) as [v|e].
      * split; [reflexivity|]. split; [|auto]. exists []. auto.
      * split; [reflexivity|]. split; [|auto].
        eexists [_]. simpl. rewrite <- app_assoc. split; [reflexivity|].
        repeat constructor.
    + split; [reflexivity|]. split; [|auto].
      eexists [_]. simpl. rewrite <- app_assoc. split; [reflexivity|].
      repeat constructor.
  - split; [reflexivity|]. split; [|auto].
    eexists [_]. simpl. rewrite <- app_assoc. split; [reflexivity|].
    repeat constructor.
Qed.

(** A call of [generateImage]: the request is made, and whatever follows
    are further attempts at the same request. *)
Lemma steps_generateImage prompt aspectRatio referenceImage w :
  let req := image_request prompt aspectRatio referenceImage in
  exists r tail w',
    steps (generateImage backend prompt aspectRatio referenceImage) w r
      (EvRequest req :: tail) w'
    /\ Forall (attempt_event req) tail
    /\ forall url, r = Returned url -> url <> EmptyString.
Proof.
  intros req.
  destruct (withRetry_first_event
              (imageOperation backend prompt aspectRatio referenceImage) 3 2000
              (attempt_event req) (fun url => url <> EmptyString) (EvRequest req)
              (imageOperation_run prompt aspectRatio referenceImage))
    with (w := w) as (Hi & (tail & Hl & Ht) & Hq);
    [reflexivity | intros; exact I | intros; exact I | lia |].
  fold (generateImage backend prompt aspectRatio referenceImage) in *.
  destruct (generateImage backend prompt aspectRatio referenceImage w)
    as [r w'] eqn:E.
  cbn [fst snd] in *.
  exists r, tail, w'. split; [|split; [exact Ht | exact Hq]].
  split; [exact E|]. split; [exact Hl|].
  rewrite Hi. symmetry. apply replay_attempt_events with (req := req).
  constructor; [reflexivity | exact Ht].
Qed.

Lemma steps_generateVisualPrompts userContext imageBase64 w :
  let req := prompts_request userContext imageBase64 in
  exists r tail w',
    steps (generateVisualPrompts backend JSON_parse userContext imageBase64) w r
      (EvRequest req :: tail) w'
    /\ Forall (attempt_event req) tail.
Proof.
  intros req.
  destruct (withRetry_first_event
              (promptsOperation backend JSON_parse userContext imageBase64) 3 2000
              (attempt_event req) (fun _ => True) (EvRequest req)
              (promptsOperation_run userContext imageBase64))
    with (w := w) as (Hi & (tail & Hl & Ht) & _);
    [reflexivity | intros; exact I | intros; exact I | lia |].
  fold (generateVisualPrompts backend JSON_parse userContext imageBase64) in *.
  destruct (generateVisualPrompts backend JSON_parse userContext imageBase64 w)
    as [r w'] eqn:E.
  cbn [fst snd] in *.
  exists r, tail, w'. split; [|exact Ht].
  split; [exact E|]. split; [exact Hl|].
  rewrite Hi. symmetry. apply replay_attempt_events with (req := req).
  constructor; [reflexivity | exact Ht].
Qed.

(** One call of [triggerImageGeneration]: it always returns, and its log
    is the loading update, the attempts at one request, and the update
    that stores the result. *)
Lemma steps_triggerImageGeneration k prompt aspectRatio refImage w :
  let req := image_request prompt aspectRatio refImage in
  exists body outcome w',
    steps (triggerImageGeneration backend k prompt aspectRatio refImage) w
      (Returned tt)
      (EvSetImages k (set_loading prompt) :: EvRequest req
         :: body ++ [EvSetImages k outcome]) w'
    /\ Forall (attempt_event req) body
    /\ render_outcome outcome.
Proof.
  intros req. unfold triggerImageGeneration.
  destruct (steps_updateImageState k (set_loading prompt) w) as [w1 H1].
  destruct (steps_generateImage prompt aspectRatio refImage w1)
    as (r & body & w2 & H2 & Hbody & Hurl).
  fold req in H2, Hbody.
  destruct r as [url|e].
  - destruct (steps_updateImageState k (set_success url) w2) as [w3 H3].
    exists body, (set_success url), w3.
    split; [|split; [exact Hbody | right; exists url; auto]].
    run_with H1; [|reflexivity].
    eapply steps_try_returned. run_with H2; [exact H3 | reflexivity].
  - destruct (steps_updateImageState k (set_error "Generation failed.") w2)
      as [w3 H3].
    exists body, (set_error "Generation failed."), w3.
    split; [|split; [exact Hbody | now left]].
    run_with H1; [|reflexivity].
    eapply steps_try_threw; [run_with H2 | exact H3 | reflexivity].
Qed.

Section Rendering.

Variable visualPrompts : VisualPrompts.
Variable entries : PlatformKey -> option string.
Hypothesis has_platforms : platforms visualPrompts = Some entries.
Variable selectedImage : option string.

Lemma steps_platform_prompt k w :
  steps (platform_prompt visualPrompts k) w (Returned (entries k)) [] w.
Proof. unfold platform_prompt. rewrite has_platforms. apply steps_ret. Qed.

Lemma steps_render_step p w :
  exists seg w',
    steps (render_step backend visualPrompts selectedImage p) w (Returned tt) seg w'
    /\ render_segment entries selectedImage p seg.
Proof.
  unfold render_step.
  destruct (steps_triggerImageGeneration (key p) (entries (key p))
              (apiAspectRatio p) (or_undefined selectedImage) w)
    as (body & outcome & w1 & H1 & Hbody & Hout).
  destruct (steps_sleep 1500 w1) as [w2 H2].
  eexists. exists w2. split.
  - run_with (steps_platform_prompt (key p) w); [|reflexivity].
    run_with H1; [exact H2 | reflexivity].
  - exists body, outcome. cbn zeta. split; [|split; assumption].
    simpl. rewrite <- app_assoc. reflexivity.
Qed.

Lemma steps_render_list l w :
  exists segs w',
    steps (forEach l (render_step backend visualPrompts selectedImage)) w
      (Returned tt) (List.concat segs) w'
    /\ Forall2 (render_segment entries selectedImage) l segs.
Proof.
  revert w; induction l as [|p l IH]; intros w.
  - exists [], w. split; [apply steps_ret | constructor].
  - destruct (steps_render_step p w) as (seg & w1 & H1 & Hseg).
    destruct (IH w1) as (segs & w2 & H2 & Hsegs).
    exists (seg :: segs), w2. split; [|constructor; assumption].
    run_with H1; [exact H2 | reflexivity].
Qed.

Lemma steps_plan_all w :
  exists w', steps (plan_all visualPrompts) w (Returned tt) (plan_events entries) w'.
Proof.
  unfold plan_all, plan_events.
  generalize PLATFORMS as l. intros l. revert w.
  induction l as [|p l IH]; intros w.
  - exists w. apply steps_ret.
  - destruct (steps_updateImageState (key p) (set_loading (entries (key p))) w)
      as [w1 H1].
    destruct (IH w1) as [w2 H2].
    exists w2.
    eapply steps_bind;
      [ run_with (steps_platform_prompt (key p) w); [exact H1 | reflexivity]
      | exact H2
      | reflexivity ].
Qed.

End Rendering.

(** The start of every run of [handleGenerateAll] that passes the guard:
    the four resets, then the prompt derivation request. *)
Lemma derivation_run userInput selectedImage w :
  let req := prompts_request userInput (or_undefined selectedImage) in
  exists tail,
    log (snd (derivation backend JSON_parse userInput selectedImage w))
    = log w ++ reset_events ++ EvRequest req :: tail
    /\ Forall (attempt_event req) tail
    /\ images (snd (derivation backend JSON_parse userInput selectedImage w))
       = replay (images w) reset_events.
Proof.
  intros req. unfold derivation.
  destruct (steps_setIsAnalyzing true w) as [w1 H1].
  destruct (steps_forEach_update (fun _ => set_idle) PLATFORMS w1) as [w2 H2].
  fold reset_all in H2. fold reset_events in H2.
  pose proof (steps_bind _ (fun _ => reset_all) _ _ _ _ _ _ _ _ H1 H2 eq_refl)
    as (H12 & L12 & I12).
  rewrite H12. cbn [snd].
  destruct (steps_generateVisualPrompts userInput
              (or_undefined selectedImage) w2)
    as (r & tail & w3 & (H3 & L3 & I3) & Htail).
  fold req in H3, L3, I3, Htail.
  rewrite H3. cbn [snd].
  exists tail. split; [|split; [exact Htail|]].
  - rewrite L3, L12. cbn [app]. now rewrite <- app_assoc.
  - rewrite I3, I12. cbn [app].
    apply replay_attempt_events with (req := req).
    constructor; [reflexivity | exact Htail].
Qed.

(** How a run goes on after the derivation. *)
Lemma handleGenerateAll_unfold userInput selectedImage w :
  nothing_to_generate userInput selectedImage = false ->
  handleGenerateAll backend JSON_parse userInput selectedImage w =
  let handler := fun error =>
    console_error EmptyString error ;; setIsAnalyzing false ;; fail_all in
  match derivation backend JSON_parse userInput selectedImage w with
  | (Returned visualPrompts, w1) =>
      try_catch
        (setIsAnalyzing false ;;
         plan_all visualPrompts ;;
         render_all backend visualPrompts selectedImage)
        handler w1
  | (Threw e, w1) => handler e w1
  end.
Proof.
  intros Hguard. unfold handleGenerateAll, derivation. rewrite Hguard.
  destruct (steps_setIsAnalyzing true w) as [w1 H1].
  destruct (steps_forEach_update (fun _ => set_idle) PLATFORMS w1) as [w2 H2].
  fold reset_all in H2.
  destruct H1 as (H1 & _). destruct H2 as (H2 & _).
  assert (E : (setIsAnalyzing true ;; reset_all) w = (Returned tt, w2))
    by (unfold bind; rewrite H1; exact H2).
  rewrite E. cbn [snd].
  unfold bind at 1. rewrite H1. unfold bind at 1. rewrite H2.
  unfold try_catch at 1. unfold bind at 1.
  destruct (generateVisualPrompts backend JSON_parse userInput
              (or_undefined selectedImage) w2) as [[visualPrompts|e] w3];
    reflexivity.
Qed.

Lemma steps_fail_handler e w :
  exists w',
    steps (console_error EmptyString e ;; setIsAnalyzing false ;; fail_all) w (Returned tt)
      (EvConsoleError EmptyString e :: fail_events) w'.
Proof.
  destruct (steps_console_error EmptyString e w) as [w1 H1].
  destruct (steps_setIsAnalyzing false w1) as [w2 H2].
  destruct (steps_forEach_update (fun _ => set_error "Failed to analyze context.")
              PLATFORMS w2) as [w3 H3].
  fold fail_all in H3. fold fail_events in H3.
  exists w3.
  run_with H1; [|reflexivity]. run_with H2; [exact H3 | reflexivity].
Qed.

Lemma steps_plan_all_throws visualPrompts w :
  platforms visualPrompts = None ->
  steps (plan_all visualPrompts) w
    (Threw (new_Error "Cannot read properties of undefined")) [] w.
Proof.
  intros Hnone. unfold plan_all, PLATFORMS. cbn [forEach].
  apply steps_bind_throw. apply steps_bind_throw.
  unfold platform_prompt. rewrite Hnone. apply steps_throw.
Qed.

(** Every run that passes the guard returns.  Its log is the four resets,
    the attempts at the prompt derivation, and then either the plan and
    one segment per platform in the order of the table, or the error
    report and the four failure updates. *)
Lemma handleGenerateAll_run userInput selectedImage w :
  nothing_to_generate userInput selectedImage = false ->
  let req := prompts_request userInput (or_undefined selectedImage) in
  exists tail rest w',
    handleGenerateAll backend JSON_parse userInput selectedImage w = (Returned tt, w')
    /\ log w' = log w ++ reset_events ++ EvRequest req :: tail ++ rest
    /\ images w' = replay (images w) (reset_events ++ rest)
    /\ Forall (attempt_event req) tail
    /\ match fst (derivation backend JSON_parse userInput selectedImage w) with
       | Returned visualPrompts =>
           match platforms visualPrompts with
           | Some entries =>
               exists segs,
                 rest = plan_events entries ++ List.concat segs
                 /\ Forall2 (render_segment entries selectedImage) PLATFORMS segs
           | None => exists e, rest = EvConsoleError EmptyString e :: fail_events
           end
       | Threw e => rest = EvConsoleError EmptyString e :: fail_events
       end.
Proof.
  intros Hguard req.
  rewrite (handleGenerateAll_unfold userInput selectedImage w Hguard).
  destruct (derivation_run userInput selectedImage w) as (tail & L & Htail & I).
  fold req in L, Htail.
  destruct (derivation backend JSON_parse userInput selectedImage w)
    as [[visualPrompts|e] w1] eqn:D; cbn [fst snd] in *; cbn zeta.
  - destruct (steps_setIsAnalyzing false w1) as [w2 H2].
    destruct (platforms visualPrompts) as [entries|] eqn:P.
    + destruct (steps_plan_all visualPrompts entries P w2) as [w3 H3].
      destruct (steps_render_list visualPrompts entries P selectedImage PLATFORMS w3)
        as (segs & w4 & H4 & Hsegs).
      fold (render_all backend visualPrompts selectedImage) in H4.
      assert (H : steps
                    (try_catch
                       (setIsAnalyzing false ;;
                        plan_all visualPrompts ;;
                        render_all backend visualPrompts selectedImage)
                       (fun error =>
                          console_error EmptyString error ;; setIsAnalyzing false ;; fail_all))
                    w1 (Returned tt) (plan_events entries ++ List.concat segs) w4).
      { apply steps_try_returned.
        run_with H2; [|reflexivity]. run_with H3; [exact H4 | reflexivity]. }
      destruct H as (Hrun & Lrun & Irun).
      exists tail, (plan_events entries ++ List.concat segs), w4.
      split; [exact Hrun|]. split; [|split; [|split; [exact Htail|]]].
      * rewrite Lrun, L. rewrite <- !app_assoc. reflexivity.
      * rewrite Irun, I. now rewrite replay_app.
      * exists segs. auto.
    + destruct (steps_fail_handler
                  (new_Error "Cannot read properties of undefined") w2)
        as [w3 H3].
      assert (H : steps
                    (try_catch
                       (setIsAnalyzing false ;;
                        plan_all visualPrompts ;;
                        render_all backend visualPrompts selectedImage)
                       (fun error =>
                          console_error EmptyString error ;; setIsAnalyzing false ;; fail_all))
                    w1 (Returned tt)
                    (EvConsoleError EmptyString (new_Error "Cannot read properties of undefined")
                       :: fail_events) w3).
      { eapply steps_try_threw;
          [ run_with H2;
            [ apply steps_bind_throw; now apply steps_plan_all_throws
            | reflexivity ]
          | exact H3
          | reflexivity ]. }
      destruct H as (Hrun & Lrun & Irun).
      eexists tail, _, w3.
      split; [exact Hrun|]. split; [|split; [|split; [exact Htail|]]].
      * rewrite Lrun, L. rewrite <- !app_assoc. reflexivity.
      * rewrite Irun, I. now rewrite replay_app.
      * eexists. reflexivity.
  - destruct (steps_fail_handler e w1) as [w3 (Hrun & Lrun & Irun)].
    eexists tail, _, w3.
    split; [exact Hrun|]. split; [|split; [|split; [exact Htail|]]].
    + rewrite Lrun, L. rewrite <- !app_assoc. reflexivity.
    + rewrite Irun, I. now rewrite replay_app.
    + reflexivity.
Qed.

End Runs.

(** ** The store after a run *)

Lemma replay_cons i e evs : replay i (e :: evs) = replay (apply_event i e) evs.
Proof. reflexivity. Qed.

Lemma replay_skips_attempts req i a tail rest :
  Forall (attempt_event req) tail ->
  replay i (a ++ EvRequest req :: tail ++ rest) = replay i (a ++ rest).
Proof.
  intros H. rewrite !replay_app, replay_cons. cbn [apply_event].
  rewrite replay_app. now rewrite (replay_attempt_events req tail).
Qed.

Lemma events_since_app w w' evs : log w' = log w ++ evs -> events_since w w' = evs.
Proof.
  intros H. unfold events_since. rewrite H. clear H.
  induction (log w) as [|e l IH]; [reflexivity | exact IH].
Qed.

(** What the segment of a platform does to the store: the record of that
    platform gets the loading update and then the outcome. *)
Lemma replay_segment entries selectedImage p seg i :
  render_segment entries selectedImage p seg ->
  exists outcome,
    render_outcome outcome
    /\ replay i seg =
       set (key p)
         (spread (spread (get (key p) i) (set_loading (entries (key p)))) outcome) i.
Proof.
  intros (body & outcome & -> & Hbody & Hout). exists outcome. split; [exact Hout|].
  rewrite !replay_cons. cbn [apply_event].
  rewrite replay_app, (replay_attempt_events _ body _ Hbody).
  rewrite !replay_cons. cbn [apply_event replay fold_left].
  rewrite get_set_same. destruct (key p); reflexivity.
Qed.

Lemma render_outcome_settles s outcome :
  render_outcome outcome -> settled (spread s outcome).
Proof.
  intros [-> | (url & Hurl & ->)].
  - right. split; [reflexivity|]. eexists. split; [reflexivity | discriminate].
  - left. split; [reflexivity|]. exists url. auto.
Qed.

(** The store after the segments of the four platforms. *)
Lemma replay_segments entries selectedImage segs i :
  Forall2 (render_segment entries selectedImage) PLATFORMS segs ->
  exists outcome : PlatformKey -> PartialImageState,
    (forall k, render_outcome (outcome k))
    /\ forall k,
         get k (replay i (List.concat segs)) =
         spread (spread (get k i) (set_loading (entries k))) (outcome k).
Proof.
  intros H. unfold PLATFORMS in H.
  inversion H as [|p1 s1 l1 r1 H1 T1]; subst; clear H.
  inversion T1 as [|p2 s2 l2 r2 H2 T2]; subst; clear T1.
  inversion T2 as [|p3 s3 l3 r3 H3 T3]; subst; clear T2.
  inversion T3 as [|p4 s4 l4 r4 H4 T4]; subst; clear T3.
  inversion T4; subst; clear T4.
  cbn [List.concat]. rewrite app_nil_r, !replay_app.
  destruct (replay_segment _ _ _ _ i H1) as (o1 & R1 & ->).
  destruct (replay_segment _ _ _ _
              (set linkedin
                 (spread (spread (get linkedin i) (set_loading (entries linkedin))) o1) i)
              H2) as (o2 & R2 & E2).
  cbn [key] in E2 |- *. rewrite E2. clear E2.
  match goal with |- context [replay ?j s3] =>
    destruct (replay_segment _ _ _ _ j H3) as (o3 & R3 & E3) end.
  cbn [key] in E3 |- *. rewrite E3. clear E3.
  match goal with |- context [replay ?j s4] =>
    destruct (replay_segment _ _ _ _ j H4) as (o4 & R4 & E4) end.
  cbn [key] in E4 |- *. rewrite E4. clear E4.
  exists (fun k => match k with
                   | linkedin => o1 | twitter => o2 | instagram => o3 | blog => o4
                   end).
  split; [intros []; assumption|].
  intros []; reflexivity.
Qed.

Lemma attempt_prompts_not_render userContext imageBase64 e :
  attempt_event (prompts_request userContext imageBase64) e -> is_render_call e = false.
Proof. destruct e; simpl; intros H; [subst; reflexivity | auto ..]. Qed.

Lemma replay_reset_fail i e k :
  get k (replay i (reset_events ++ EvConsoleError EmptyString e :: fail_events))
  = spread (spread (get k i) set_idle) (set_error "Failed to analyze context.").
Proof. destruct k; reflexivity. Qed.

Lemma replay_reset i k : get k (replay i reset_events) = spread (get k i) set_idle.
Proof. destruct k; reflexivity. Qed.

Lemma replay_plan entries i k :
  get k (replay i (plan_events entries)) = spread (get k i) (set_loading (entries k)).
Proof. destruct k; reflexivity. Qed.

Section Claims.

Variable backend : Backend.
Variable JSON_parse : JsonParser.

(** The record of every platform at the end of a run that passes the
    guard. *)
Lemma handleGenerateAll_final_store userInput selectedImage w :
  nothing_to_generate userInput selectedImage = false ->
  exists w',
    handleGenerateAll backend JSON_parse userInput selectedImage w = (Returned tt, w')
    /\ forall k,
         (exists prompt outcome,
             render_outcome outcome
             /\ get k (images w') =
                spread (spread (spread (spread (get k (images w)) set_idle)
                                  (set_loading prompt)) (set_loading prompt)) outcome)
         \/ get k (images w') =
            spread (spread (get k (images w)) set_idle)
              (set_error "Failed to analyze context.").
Proof.
  intros Hguard.
  destruct (handleGenerateAll_run backend JSON_parse userInput selectedImage w Hguard)
    as (tail & rest & w' & Hrun & L & I & Htail & Hrest).
  exists w'. split; [exact Hrun|]. intros k. rewrite I.
  destruct (fst (derivation backend JSON_parse userInput selectedImage w))
    as [visualPrompts|e].
  - destruct (platforms visualPrompts) as [entries|].
    + destruct Hrest as (segs & -> & Hsegs). left.
      rewrite !replay_app.
      destruct (replay_segments entries selectedImage segs
                  (replay (replay (images w) reset_events) (plan_events entries))
                  Hsegs) as (outcome & Hout & E).
      exists (entries k), (outcome k). split; [apply Hout|].
      now rewrite E, replay_plan, replay_reset.
    + destruct Hrest as (e & ->). right. apply replay_reset_fail.
  - subst rest. right. apply replay_reset_fail.
Qed.

(** C1. A run of [handleGenerateAll] that passes the guard and whose
    prompt derivation returns comes to an end, and then each of the four
    platforms has status success with a non-empty imageUrl or status error
    with a non-empty errorMsg; none is left idle or loading. *)
Theorem generateAll_settles_every_platform userInput selectedImage w visualPrompts :
  nothing_to_generate userInput selectedImage = false ->
  fst (derivation backend JSON_parse userInput selectedImage w)
  = Returned visualPrompts ->
  exists w',
    handleGenerateAll backend JSON_parse userInput selectedImage w = (Returned tt, w')
    /\ forall k, settled (get k (images w')).
Proof.
  intros Hguard _.
  destruct (handleGenerateAll_final_store userInput selectedImage w Hguard)
    as (w' & Hrun & Hstore).
  exists w'. split; [exact Hrun|]. intros k.
  destruct (Hstore k) as [(prompt & outcome & Hout & ->) | ->].
  - now apply render_outcome_settles.
  - right. split; [reflexivity|]. eexists. split; [reflexivity | discriminate].
Qed.

(** C2. After a prompt derivation that returned the prompts of the
    platforms, the rest of the log of the run is one segment per platform,
    in the order linkedin, twitter, instagram, blog of the table.  The
    segment of a platform holds every request for its render, then the
    update that stores the result of that render, then a wait of 1500 ms,
    so that the render of the next platform is requested after both.  No
    render is requested before the first segment. *)
Theorem generateAll_renders_in_table_order
  userInput selectedImage w visualPrompts entries :
  nothing_to_generate userInput selectedImage = false ->
  fst (derivation backend JSON_parse userInput selectedImage w)
  = Returned visualPrompts ->
  platforms visualPrompts = Some entries ->
  exists before segs w',
    handleGenerateAll backend JSON_parse userInput selectedImage w = (Returned tt, w')
    /\ events_since w w' = before ++ List.concat segs
    /\ Forall (fun e => is_render_call e = false) before
    /\ Forall2 (render_segment entries selectedImage) PLATFORMS segs
    /\ map key PLATFORMS = [linkedin; twitter; instagram; blog].
Proof.
  intros Hguard Hderived Hentries.
  destruct (handleGenerateAll_run backend JSON_parse userInput selectedImage w Hguard)
    as (tail & rest & w' & Hrun & L & _ & Htail & Hrest).
  rewrite Hderived, Hentries in Hrest. destruct Hrest as (segs & -> & Hsegs).
  exists (reset_events
            ++ EvRequest (prompts_request userInput (or_undefined selectedImage))
            :: tail ++ plan_events entries), segs, w'.
  split; [exact Hrun|]. split; [|split; [|split; [exact Hsegs | reflexivity]]].
  - apply events_since_app. rewrite L.
    rewrite <- !app_assoc. cbn [app]. now rewrite <- !app_assoc.
  - apply Forall_app. split; [repeat constructor|].
    constructor; [reflexivity|].
    apply Forall_app. split; [|repeat constructor].
    eapply Forall_impl; [|exact Htail].
    intros e. apply attempt_prompts_not_render.
Qed.

(** C5. When the prompt derivation of a run fails, the run ends with all
    four platforms in status error with the one message
    "Failed to analyze context.", and the image model was never called. *)
Theorem generateAll_derivation_failure userInput selectedImage w e :
  nothing_to_generate userInput selectedImage = false ->
  fst (derivation backend JSON_parse userInput selectedImage w) = Threw e ->
  exists w',
    handleGenerateAll backend JSON_parse userInput selectedImage w = (Returned tt, w')
    /\ (forall k, status (get k (images w')) = error
                  /\ errorMsg (get k (images w')) = Some "Failed to analyze context.")
    /\ Forall (fun ev => is_render_call ev = false) (events_since w w').
Proof.
  intros Hguard Hfailed.
  destruct (handleGenerateAll_run backend JSON_parse userInput selectedImage w Hguard)
    as (tail & rest & w' & Hrun & L & I & Htail & Hrest).
  rewrite Hfailed in Hrest. subst rest.
  exists w'. split; [exact Hrun|]. split.
  - intros k. rewrite I, replay_reset_fail. split; reflexivity.
  - rewrite (events_since_app _ _ _ L).
    apply Forall_app. split; [repeat constructor|].
    constructor; [reflexivity|].
    apply Forall_app. split; [|repeat constructor].
    eapply Forall_impl; [|exact Htail].
    intros ev. apply attempt_prompts_not_render.
Qed.

(** C6, as the code has it.  In a run that passes the guard, the first
    backend call is the prompt derivation request, and at that moment each
    of the four platforms has status idle and no errorMsg, while its
    imageUrl and its prompt are those it had before the run. *)
Theorem generateAll_resets_before_first_call userInput selectedImage w :
  nothing_to_generate userInput selectedImage = false ->
  let w' := snd (handleGenerateAll backend JSON_parse userInput selectedImage w) in
  (exists after,
      events_since w w' =
      before_first_request (events_since w w')
        ++ EvRequest (prompts_request userInput (or_undefined selectedImage))
        :: after)
  /\ forall k,
       let s := get k (images_at_first_request w w') in
       status s = idle
       /\ errorMsg s = None
       /\ imageUrl s = imageUrl (get k (images w))
       /\ prompt s = prompt (get k (images w)).
Proof.
  intros Hguard w'. subst w'.
  destruct (handleGenerateAll_run backend JSON_parse userInput selectedImage w Hguard)
    as (tail & rest & w' & Hrun & L & _ & _ & _).
  rewrite Hrun. cbn [snd]. unfold images_at_first_request.
  rewrite (events_since_app _ _ _ L).
  change (before_first_request
            (reset_events
               ++ EvRequest (prompts_request userInput (or_undefined selectedImage))
               :: tail ++ rest))
    with reset_events.
  split; [eexists; reflexivity|].
  intros k. cbn zeta. rewrite replay_reset. repeat split.
Qed.

End Claims.

(** ** Single regeneration and the reachable states *)

Lemma find_platform k :
  exists cfg, find (fun p => PlatformKey_eqb (key p) k) PLATFORMS = Some cfg
              /\ In cfg PLATFORMS /\ key cfg = k.
Proof.
  destruct k; eexists; (split; [reflexivity|]); (split; [|reflexivity]);
    simpl; auto.
Qed.

(** C9. [handleRegenerateSingle] when the platform has no prompt, or an
    empty one, changes nothing and logs nothing.  When it has a non-empty
    prompt, the run is one [triggerImageGeneration] for that platform: every
    request it makes is the render request built from the cached prompt and
    from the aspect ratio of the platform in the table, and the records of
    the other platforms stay as they are. *)
Theorem regenerateOne_uses_cached_prompt
  (backend : Backend) (selectedImage : option string) (k : PlatformKey) (w : World) :
  match or_undefined (prompt (get k (images w))) with
  | None => handleRegenerateSingle backend selectedImage k w = (Returned tt, w)
  | Some cached =>
      exists cfg body outcome w',
        In cfg PLATFORMS /\ key cfg = k
        /\ let req := image_request (Some cached) (apiAspectRatio cfg)
                        (or_undefined selectedImage) in
           handleRegenerateSingle backend selectedImage k w = (Returned tt, w')
           /\ events_since w w' =
              EvSetImages k (set_loading (Some cached)) :: EvRequest req
                :: body ++ [EvSetImages k outcome]
           /\ Forall (attempt_event req) body
           /\ render_outcome outcome
           /\ forall k', k' <> k -> get k' (images w') = get k' (images w)
  end.
Proof.
  unfold handleRegenerateSingle.
  destruct (or_undefined (prompt (get k (images w)))) as [cached|]; [|reflexivity].
  destruct (find_platform k) as (cfg & -> & Hin & Hkey).
  destruct (steps_triggerImageGeneration backend k (Some cached) (apiAspectRatio cfg)
              (or_undefined selectedImage) w)
    as (body & outcome & w' & (Hrun & L & I) & Hbody & Hout).
  exists cfg, body, outcome, w'. cbn zeta.
  repeat (split; [assumption|]).
  split; [now apply events_since_app|].
  repeat (split; [assumption|]).
  intros k' Hk'. rewrite I, !replay_cons. cbn [apply_event].
  rewrite replay_app, (replay_attempt_events _ body _ Hbody).
  cbn [replay fold_left apply_event].
  now rewrite !get_set_other.
Qed.

Lemma render_outcome_pipeline outcome : render_outcome outcome -> pipeline_update outcome.
Proof.
  intros [-> | (url & Hurl & ->)].
  - right. right. right. eexists. split; [|reflexivity]. discriminate.
  - right. right. left. eauto.
Qed.

Lemma attempt_event_pipeline req e : attempt_event req e -> pipeline_event e.
Proof. destruct e; simpl; auto. contradiction. Qed.

Lemma render_segment_pipeline entries selectedImage p seg :
  render_segment entries selectedImage p seg -> Forall pipeline_event seg.
Proof.
  intros (body & outcome & -> & Hbody & Hout).
  constructor; [right; left; eauto|]. constructor; [exact I|].
  apply Forall_app. split.
  - eapply Forall_impl; [|exact Hbody]. intros e. apply attempt_event_pipeline.
  - constructor; [now apply render_outcome_pipeline|]. constructor; [exact I|constructor].
Qed.

Lemma render_segments_pipeline entries selectedImage l segs :
  Forall2 (render_segment entries selectedImage) l segs ->
  Forall pipeline_event (List.concat segs).
Proof.
  induction 1 as [|p seg l segs Hseg _ IH]; [constructor|].
  cbn [List.concat]. apply Forall_app. split; [|exact IH].
  eapply render_segment_pipeline; eauto.
Qed.

Lemma fail_events_pipeline : Forall pipeline_event fail_events.
Proof.
  unfold fail_events, PLATFORMS. cbn [map].
  repeat (apply Forall_cons;
          [right; right; right; eexists; split; [|reflexivity]; discriminate|]).
  apply Forall_nil.
Qed.

Lemma reset_events_pipeline : Forall pipeline_event reset_events.
Proof.
  unfold reset_events, PLATFORMS. cbn [map].
  repeat (apply Forall_cons; [now left|]). apply Forall_nil.
Qed.

Lemma plan_events_pipeline entries : Forall pipeline_event (plan_events entries).
Proof.
  unfold plan_events, PLATFORMS. cbn [map].
  repeat (apply Forall_cons; [right; left; eauto|]). apply Forall_nil.
Qed.

(** Whatever a run of the two handlers logs are updates of the pipeline,
    and the store follows the log. *)
Lemma handleGenerateAll_evolves backend JSON_parse userInput selectedImage w :
  let w' := snd (handleGenerateAll backend JSON_parse userInput selectedImage w) in
  exists evs, log w' = log w ++ evs /\ Forall pipeline_event evs
              /\ images w' = replay (images w) evs.
Proof.
  cbn zeta.
  destruct (nothing_to_generate userInput selectedImage) eqn:Hguard.
  - unfold handleGenerateAll. rewrite Hguard. exists []. cbn [ret snd].
    rewrite app_nil_r. auto.
  - destruct (handleGenerateAll_run backend JSON_parse userInput selectedImage w Hguard)
      as (tail & rest & w' & Hrun & L & Hi & Htail & Hrest).
    rewrite Hrun. cbn [snd].
    eexists. split; [exact L|]. split.
    + apply Forall_app. split; [apply reset_events_pipeline|].
      constructor; [exact I|].
      apply Forall_app. split.
      * eapply Forall_impl; [|exact Htail]. intros e. apply attempt_event_pipeline.
      * destruct (fst (derivation backend JSON_parse userInput selectedImage w))
          as [visualPrompts|e].
        -- destruct (platforms visualPrompts) as [entries|].
           ++ destruct Hrest as (segs & -> & Hsegs).
              apply Forall_app. split; [apply plan_events_pipeline|].
              eapply render_segments_pipeline; eauto.
           ++ destruct Hrest as (e & ->).
              constructor; [exact I | apply fail_events_pipeline].
        -- subst rest. constructor; [exact I | apply fail_events_pipeline].
    + rewrite Hi. symmetry. now apply replay_skips_attempts.
Qed.

Lemma handleRegenerateSingle_evolves backend selectedImage k w :
  let w' := snd (handleRegenerateSingle backend selectedImage k w) in
  exists evs, log w' = log w ++ evs /\ Forall pipeline_event evs
              /\ images w' = replay (images w) evs.
Proof.
  cbn zeta. unfold handleRegenerateSingle.
  destruct (or_undefined (prompt (get k (images w)))) as [cached|].
  - destruct (find_platform k) as (cfg & -> & _ & _).
    destruct (steps_triggerImageGeneration backend k (Some cached) (apiAspectRatio cfg)
                (or_undefined selectedImage) w)
      as (body & outcome & w' & (Hrun & L & Hi) & Hbody & Hout).
    rewrite Hrun. cbn [snd]. eexists. split; [exact L|]. split; [|exact Hi].
    constructor; [right; left; eauto|]. constructor; [exact I|].
    apply Forall_app. split.
    + eapply Forall_impl; [|exact Hbody]. intros e. apply attempt_event_pipeline.
    + constructor; [now apply render_outcome_pipeline | constructor].
  - exists []. cbn [snd]. rewrite app_nil_r. auto.
Qed.

Lemma reachable_log w :
  reachable w ->
  Forall pipeline_event (log w) /\ images w = replay initial_images (log w).
Proof.
  induction 1 as [| backend JSON_parse userInput selectedImage w _ [IHl IHi]
                  | backend selectedImage k w _ [IHl IHi]].
  - split; [constructor | reflexivity].
  - destruct (handleGenerateAll_evolves backend JSON_parse userInput selectedImage w)
      as (evs & L & P & I).
    rewrite L, I, IHi. split; [apply Forall_app; auto | now rewrite replay_app].
  - destruct (handleRegenerateSingle_evolves backend selectedImage k w)
      as (evs & L & P & I).
    rewrite L, I, IHi. split; [apply Forall_app; auto | now rewrite replay_app].
Qed.

Lemma last_render_snoc k pre e :
  last_render k (pre ++ [e]) =
  match e with
  | EvSetImages k' newState =>
      match set_status newState, set_imageUrl newState with
      | Some success, Some url => if PlatformKey_eqb k' k then url else last_render k pre
      | _, _ => last_render k pre
      end
  | _ => last_render k pre
  end.
Proof. unfold last_render. rewrite fold_left_app. reflexivity. Qed.

Lemma pipeline_events_invariant pre :
  Forall pipeline_event pre ->
  forall k, state_invariant k pre (get k (replay initial_images pre)).
Proof.
  induction pre as [|e pre IH] using rev_ind; intros Hall k.
  - unfold state_invariant. destruct k; simpl; repeat split; discriminate.
  - apply Forall_app in Hall as [Hpre He]. inversion He as [|? ? Hev _]; subst.
    specialize (IH Hpre k). destruct IH as (Hs & Herr & Hurl).
    rewrite replay_app. cbn [replay fold_left].
    fold (replay initial_images pre).
    unfold state_invariant. rewrite last_render_snoc.
    destruct e as [req|ms|d a r|what err|k' newState]; cbn [apply_event];
      try (repeat split; assumption).
    destruct (PlatformKey_eq_dec k' k) as [->|Hne].
    + rewrite get_set_same.
      assert (Hkk : PlatformKey_eqb k k = true) by now apply PlatformKey_eqb_eq.
      destruct Hev as [-> | [(pr & ->) | [(url & Hu & ->) | (msg & Hm & ->)]]];
        cbn [spread set_idle set_loading set_success set_error set_status set_imageUrl
               set_prompt set_errorMsg status imageUrl errorMsg]; rewrite ?Hkk;
        repeat split; try discriminate; try assumption; eauto.
    + rewrite get_set_other by congruence.
      assert (Hkk : PlatformKey_eqb k' k = false).
      { destruct (PlatformKey_eqb k' k) eqn:E; [|reflexivity].
        apply PlatformKey_eqb_eq in E. contradiction. }
      destruct Hev as [-> | [(pr & ->) | [(url & Hu & ->) | (msg & Hm & ->)]]];
        cbn [set_idle set_loading set_success set_error set_status set_imageUrl];
        rewrite ?Hkk; repeat split; assumption.
Qed.

(** C7, as the code has it.  In every reachable world the store is what the
    updates of the log make of the initial store, and after each event of
    the log, for each platform: status success comes with a non-empty
    imageUrl, status error with a non-empty errorMsg, and the imageUrl is the
    image that the last successful render of the platform stored, or absent
    when there was none.  The errorMsg is absent in every success state that
    a run of [handleGenerateAll] ends in. *)
Theorem reachable_state_invariant (w : World) :
  reachable w ->
  images w = replay initial_images (log w)
  /\ (forall pre post k,
         log w = pre ++ post ->
         state_invariant k pre (get k (replay initial_images pre)))
  /\ (forall backend JSON_parse userInput selectedImage k,
         nothing_to_generate userInput selectedImage = false ->
         let s := get k (images (snd (handleGenerateAll backend JSON_parse
                                        userInput selectedImage w))) in
         status s = success -> errorMsg s = None).
Proof.
  intros Hreach. destruct (reachable_log w Hreach) as [Hlog Himg].
  split; [exact Himg|]. split.
  - intros pre post k Hsplit. apply pipeline_events_invariant.
    rewrite Hsplit in Hlog. now apply Forall_app in Hlog as [Hpre _].
  - intros backend JSON_parse userInput selectedImage k Hguard.
    destruct (handleGenerateAll_final_store backend JSON_parse userInput
                selectedImage w Hguard) as (w' & Hrun & Hstore).
    rewrite Hrun. cbn [snd]. cbn zeta.
    destruct (Hstore k) as [(pr & outcome & Hout & ->) | ->].
    + destruct Hout as [-> | (url & _ & ->)]; [discriminate | reflexivity].
    + discriminate.
Qed.

(** C8. With a user input that is empty, or only white space, and without
    a reference image, [handleGenerateAll] returns at once: the world is the
    same, so no record has changed and nothing was logged, no request among
    it. *)
Theorem generateAll_without_input_is_noop
  (backend : Backend) (JSON_parse : JsonParser)
  (userInput : string) (selectedImage : option string) (w : World) :
  JsString.trim userInput = EmptyString ->
  or_undefined selectedImage = None ->
  handleGenerateAll backend JSON_parse userInput selectedImage w = (Returned tt, w).
Proof.
  intros Hinput Himage.
  unfold handleGenerateAll, nothing_to_generate, truthy_opt.
  now rewrite Hinput, Himage.
Qed.

Lemma prompts_request_unmatched userContext img :
  ~ matches_data_uri img ->
  prompts_request userContext (Some img) =
  {| model := "gemini-3-flash-preview";
     parts := [TextPart (Some userContext)];
     config := PromptsConfig |}.
Proof.
  intros H. unfold prompts_request. now rewrite request_parts_unmatched.
Qed.

Lemma image_request_unmatched prompt aspectRatio img :
  ~ matches_data_uri img ->
  image_request prompt aspectRatio (Some img) =
  {| model := "gemini-2.5-flash-image";
     parts := [TextPart prompt];
     config := ImageConfig aspectRatio |}.
Proof.
  intros H. unfold image_request. now rewrite request_parts_unmatched.
Qed.

(** C10. With a reference image that the pattern of [parseBase64] does not
    match, [generateVisualPrompts] and [generateImage] still call the
    backend, the parts of every request they make are the text alone, and
    the call ends exactly as the same call without any reference image: the
    image is left out and nothing is thrown on its account. *)
Theorem unmatched_reference_image_is_left_out
  (backend : Backend) (JSON_parse : JsonParser) (userContext : string)
  (prompt : option string) (aspectRatio : AspectRatio) (img : string) (w : World) :
  ~ matches_data_uri img ->
  (let req := {| model := "gemini-3-flash-preview";
                 parts := [TextPart (Some userContext)];
                 config := PromptsConfig |} in
   let run := generateVisualPrompts backend JSON_parse userContext (Some img) w in
   run = generateVisualPrompts backend JSON_parse userContext None w
   /\ exists tail, events_since w (snd run) = EvRequest req :: tail
                   /\ Forall (attempt_event req) tail)
  /\ (let req := {| model := "gemini-2.5-flash-image";
                    parts := [TextPart prompt];
                    config := ImageConfig aspectRatio |} in
      let run := generateImage backend prompt aspectRatio (Some img) w in
      run = generateImage backend prompt aspectRatio None w
      /\ exists tail, events_since w (snd run) = EvRequest req :: tail
                      /\ Forall (attempt_event req) tail).
Proof.
  intros Hno. split; cbn zeta.
  - split.
    + unfold generateVisualPrompts, promptsOperation.
      now rewrite (prompts_request_unmatched userContext img Hno).
    + destruct (steps_generateVisualPrompts backend JSON_parse userContext (Some img) w)
        as (r & tail & w' & (Hrun & L & _) & Htail).
      rewrite (prompts_request_unmatched userContext img Hno) in L, Htail.
      rewrite Hrun. cbn [snd]. exists tail. split; [|exact Htail].
      now apply events_since_app.
  - split.
    + unfold generateImage, imageOperation.
      now rewrite (image_request_unmatched prompt aspectRatio img Hno).
    + destruct (steps_generateImage backend prompt aspectRatio (Some img) w)
        as (r & tail & w' & (Hrun & L & _) & Htail & _).
      rewrite (image_request_unmatched prompt aspectRatio img Hno) in L, Htail.
      rewrite Hrun. cbn [snd]. exists tail. split; [|exact Htail].
      now apply events_since_app.
Qed.

(** ** The claims at concrete runs *)

Lemma generateAll_settles_every_platform_witness :
  exists w',
    handleGenerateAll Fixtures.good_backend Fixtures.parser Fixtures.context None
      initial_world = (Returned tt, w')
    /\ forall k, settled (get k (images w')).
Proof.
  apply (generateAll_settles_every_platform Fixtures.good_backend Fixtures.parser
           Fixtures.context None initial_world Fixtures.prompts);
    reflexivity.
Defined.

Lemma generateAll_renders_in_table_order_witness :
  exists before segs w',
    handleGenerateAll Fixtures.quota_twice_backend Fixtures.parser Fixtures.context None
      initial_world = (Returned tt, w')
    /\ events_since initial_world w' = before ++ List.concat segs
    /\ Forall (fun e => is_render_call e = false) before
    /\ Forall2
         (render_segment
            (fun k =>
               match k with
               | linkedin => Some "cover, subject in the right third"
               | twitter => Some "header, subject centred"
               | instagram => Some "square, subject centred"
               | blog => Some "wide shot, bottom clear"
               end) None) PLATFORMS segs
    /\ map key PLATFORMS = [linkedin; twitter; instagram; blog].
Proof.
  apply (generateAll_renders_in_table_order Fixtures.quota_twice_backend
           Fixtures.parser Fixtures.context None initial_world Fixtures.prompts);
    reflexivity.
Defined.

Lemma generateAll_derivation_failure_witness :
  exists w',
    handleGenerateAll Fixtures.down_backend Fixtures.parser Fixtures.context None
      initial_world = (Returned tt, w')
    /\ (forall k, status (get k (images w')) = error
                  /\ errorMsg (get k (images w')) = Some "Failed to analyze context.")
    /\ Forall (fun ev => is_render_call ev = false) (events_since initial_world w').
Proof.
  apply (generateAll_derivation_failure Fixtures.down_backend Fixtures.parser
           Fixtures.context None initial_world (new_Error "Service unavailable"));
    reflexivity.
Defined.

Lemma generateAll_resets_before_first_call_witness :
  (exists after,
      events_since Fixtures.after_good_run Fixtures.after_second_run =
      before_first_request
        (events_since Fixtures.after_good_run Fixtures.after_second_run)
        ++ EvRequest (prompts_request Fixtures.context None) :: after)
  /\ status (get linkedin (images_at_first_request Fixtures.after_good_run
                             Fixtures.after_second_run)) = idle
  /\ errorMsg (get linkedin (images_at_first_request Fixtures.after_good_run
                               Fixtures.after_second_run)) = None
  /\ imageUrl (get linkedin (images_at_first_request Fixtures.after_good_run
                               Fixtures.after_second_run))
     = Some "data:image/png;base64,iVBOR".
Proof.
  destruct (generateAll_resets_before_first_call Fixtures.good_backend
              Fixtures.parser Fixtures.context None Fixtures.after_good_run
              eq_refl) as [Hfirst Hstore].
  split; [exact Hfirst|].
  destruct (Hstore linkedin) as (Hstatus & Herror & Hurl & _).
  split; [exact Hstatus|]. split; [exact Herror|]. exact Hurl.
Defined.

(** C6, as it was stated, fails: a second full run starts with the images
    of the first run still in the store when it calls the backend. *)
Lemma generateAll_keeps_imageUrl_at_first_call :
  reachable Fixtures.after_good_run
  /\ nothing_to_generate Fixtures.context None = false
  /\ imageUrl
       (get linkedin
          (images_at_first_request Fixtures.after_good_run
             (snd (handleGenerateAll Fixtures.good_backend Fixtures.parser
                     Fixtures.context None Fixtures.after_good_run))))
     = Some "data:image/png;base64,iVBOR".
Proof.
  split; [apply reachable_generateAll, reachable_start|].
  split; reflexivity.
Qed.

Lemma reachable_after_regenerate : reachable Fixtures.after_regenerate.
Proof.
  apply reachable_regenerate, reachable_generateAll, reachable_start.
Qed.

(** C7, as it was stated, fails: a render that failed and is regenerated
    with success leaves the platform in status success with the errorMsg of
    the failure. *)
Lemma regenerate_keeps_stale_errorMsg :
  reachable Fixtures.after_regenerate
  /\ status (get linkedin (images Fixtures.after_regenerate)) = success
  /\ errorMsg (get linkedin (images Fixtures.after_regenerate))
     = Some "Generation failed.".
Proof.
  split; [exact reachable_after_regenerate|]. split; reflexivity.
Qed.

Lemma reachable_state_invariant_witness :
  images Fixtures.after_regenerate
  = replay initial_images (log Fixtures.after_regenerate)
  /\ (forall pre post k,
         log Fixtures.after_regenerate = pre ++ post ->
         state_invariant k pre (get k (replay initial_images pre)))
  /\ (forall backend JSON_parse userInput selectedImage k,
         nothing_to_generate userInput selectedImage = false ->
         let s := get k (images (snd (handleGenerateAll backend JSON_parse
                                        userInput selectedImage
                                        Fixtures.after_regenerate))) in
         status s = success -> errorMsg s = None).
Proof.
  apply (reachable_state_invariant Fixtures.after_regenerate).
  apply reachable_regenerate, reachable_generateAll, reachable_start.
Defined.

Lemma generateAll_without_input_is_noop_witness :
  handleGenerateAll Fixtures.good_backend Fixtures.parser EmptyString None initial_world
  = (Returned tt, initial_world).
Proof.
  apply generateAll_without_input_is_noop; reflexivity.
Defined.

Lemma unmatched_reference_image_is_left_out_witness :
  generateImage Fixtures.good_backend (Some "logo") Ratio_1_1
    (Some "https://example.org/a.png") initial_world
  = generateImage Fixtures.good_backend (Some "logo") Ratio_1_1 None initial_world.
Proof.
  apply (unmatched_reference_image_is_left_out Fixtures.good_backend Fixtures.parser
           Fixtures.context (Some "logo") Ratio_1_1 "https://example.org/a.png"
           initial_world).
  intros Hmatch. apply parseBase64_matches in Hmatch. apply Hmatch. reflexivity.
Defined.

(** * Further properties of the code *)

(** ** parseBase64 *)

Lemma string_append_assoc (a b c : string) :
  ((a ++ b) ++ c)%string = (a ++ b ++ c)%string.
Proof. induction a as [|x a IH]; simpl; [reflexivity | now rewrite IH]. Qed.

Lemma includes_append (a sub b : string) :
  JsString.includes (a ++ sub ++ b)%string sub = true.
Proof.
  induction a as [|x a IH].
  - cbn [append]. pose proof (startsWith_append sub b) as H.
    destruct (sub ++ b)%string; cbn [JsString.includes]; now rewrite H.
  - cbn [append JsString.includes]. rewrite IH. apply orb_true_r.
Qed.

(** The groups are split at the last marker that leaves a payload. *)
Lemma match_groups_last (s m d : string) :
  match_groups s = Some (m, d) ->
  forall a b, d = (a ++ base64_marker ++ b)%string -> b = EmptyString.
Proof.
  revert m d; induction s as [|c s IH]; intros m d H a b Hd;
    cbn [match_groups] in H; [discriminate|].
  destruct (match_groups s) as [[m' d']|] eqn:E.
  - injection H as <- <-. eapply IH; eauto.
  - destruct (JsString.startsWith base64_marker s) eqn:Hp;
      cbn [andb] in H; [|discriminate].
    destruct (JsString.truthy (JsString.drop 8 s)) eqn:Ht; [|discriminate].
    injection H as <- <-.
    destruct b as [|x b]; [reflexivity|]. exfalso.
    match type of Hd with
    | ?rest = _ =>
        assert (Hs : s = (base64_marker ++ rest)%string)
          by exact (startsWith_split _ _ Hp)
    end.
    rewrite Hd, <- string_append_assoc in Hs.
    apply (match_groups_complete (base64_marker ++ a) (String x b));
      [discriminate | discriminate | now rewrite <- Hs].
Qed.

Lemma match_groups_needs_marker (s m d : string) :
  match_groups s = Some (m, d) ->
  exists c s', s = String c s' /\ JsString.includes s' base64_marker = true.
Proof.
  intros H. apply match_groups_sound in H as (-> & Hm & _).
  destruct m as [|c m]; [congruence|].
  exists c, (m ++ base64_marker ++ d)%string. split; [reflexivity|].
  apply includes_append.
Qed.

Lemma match_groups_exact (m d : string) :
  m <> EmptyString -> d <> EmptyString ->
  JsString.includes d base64_marker = false ->
  match_groups (m ++ base64_marker ++ d)%string = Some (m, d).
Proof.
  intros Hm Hd Hfree. induction m as [|c m IH]; [congruence|].
  cbn [append match_groups].
  destruct m as [|c' m].
  - change (EmptyString ++ base64_marker ++ d)%string with (base64_marker ++ d)%string.
    destruct (match_groups (base64_marker ++ d)%string) as [[m' d']|] eqn:E.
    + exfalso. apply match_groups_needs_marker in E as (x & s' & Hs & Hin).
      unfold base64_marker in Hs. cbn [append] in Hs. injection Hs as _ <-.
      unfold base64_marker in Hin. simpl in Hin.
      unfold base64_marker in Hfree. congruence.
    + rewrite startsWith_append.
      change 8%nat with (String.length base64_marker). rewrite drop_append.
      apply truthy_nonempty in Hd. now rewrite Hd.
  - rewrite IH by discriminate. reflexivity.
Qed.

(** X1. Whatever [parseBase64] returns puts the input together again:
    the input is "data:", the mime type, ";base64," and the data, both are
    non-empty and neither holds a line terminator. *)
Theorem parseBase64_reassembles (s : string) (p : InlineData) :
  parseBase64 s = Some p ->
  s = ("data:" ++ mimeType p ++ ";base64," ++ data p)%string
  /\ mimeType p <> EmptyString /\ data p <> EmptyString
  /\ JsString.noLineTerminator (mimeType p) = true
  /\ JsString.noLineTerminator (data p) = true.
Proof.
  unfold parseBase64.
  destruct (JsString.startsWith "data:" s) eqn:Hp; [|discriminate].
  destruct (JsString.noLineTerminator (JsString.drop 5 s)) eqn:Hn; [|discriminate].
  destruct (match_groups (JsString.drop 5 s)) as [[m d]|] eqn:Hg; [|discriminate].
  intros [= <-]. cbn [mimeType data].
  apply match_groups_sound in Hg as (Hs & Hm & Hd).
  rewrite Hs, !noLineTerminator_append in Hn.
  apply andb_true_iff in Hn as [Hnm Hn].
  apply andb_true_iff in Hn as [_ Hnd].
  split; [|auto].
  rewrite (startsWith_split _ _ Hp) at 1.
  change (String.length "data:") with 5%nat. now rewrite Hs.
Qed.

Lemma parseBase64_reassembles_witness :
  "data:image/png;base64,iVBOR"
  = ("data:" ++ "image/png" ++ ";base64," ++ "iVBOR")%string
  /\ "image/png" <> EmptyString /\ "iVBOR" <> EmptyString
  /\ JsString.noLineTerminator "image/png" = true
  /\ JsString.noLineTerminator "iVBOR" = true.
Proof.
  exact (parseBase64_reassembles "data:image/png;base64,iVBOR"
           {| mimeType := "image/png"; data := "iVBOR" |} eq_refl).
Defined.

(** X2. A data URI made of a mime type and of data that are non-empty and
    without line terminators, the data without the marker ";base64,", is
    parsed back into that mime type and that data. *)
Theorem parseBase64_round_trip (m d : string) :
  m <> EmptyString -> d <> EmptyString ->
  JsString.noLineTerminator m = true ->
  JsString.noLineTerminator d = true ->
  JsString.includes d ";base64," = false ->
  parseBase64 ("data:" ++ m ++ ";base64," ++ d)%string
  = Some {| mimeType := m; data := d |}.
Proof.
  intros Hm Hd Hnm Hnd Hfree. unfold parseBase64.
  rewrite startsWith_append.
  change 5%nat with (String.length "data:"). rewrite drop_append.
  rewrite !noLineTerminator_append, Hnm, Hnd.
  change (JsString.noLineTerminator ";base64,") with true. cbn [andb].
  pose proof (match_groups_exact m d Hm Hd Hfree) as Hg.
  unfold base64_marker in Hg. now rewrite Hg.
Qed.

Lemma parseBase64_round_trip_witness :
  parseBase64 ("data:" ++ "image/webp" ++ ";base64," ++ "UklGRg==")%string
  = Some {| mimeType := "image/webp"; data := "UklGRg==" |}.
Proof.
  apply parseBase64_round_trip; solve [discriminate | reflexivity].
Defined.

(** X3. When the marker ";base64," occurs several times, [parseBase64]
    splits at the last one that is followed by something: in the data it
    returns, the marker is followed by nothing. *)
Theorem parseBase64_splits_at_last_marker (s : string) (p : InlineData) :
  parseBase64 s = Some p ->
  forall a b, data p = (a ++ ";base64," ++ b)%string -> b = EmptyString.
Proof.
  unfold parseBase64.
  destruct (JsString.startsWith "data:" s); [|discriminate].
  destruct (JsString.noLineTerminator (JsString.drop 5 s)); [|discriminate].
  destruct (match_groups (JsString.drop 5 s)) as [[m d]|] eqn:Hg; [|discriminate].
  intros [= <-] a b Hd. cbn [data] in Hd.
  exact (match_groups_last _ _ _ Hg a b Hd).
Qed.

Lemma parseBase64_splits_at_last_marker_witness :
  parseBase64 "data:a;base64,b;base64,"
  = Some {| mimeType := "a"; data := "b;base64," |}
  /\ (EmptyString : string) = EmptyString.
Proof.
  split; [reflexivity|].
  exact (parseBase64_splits_at_last_marker "data:a;base64,b;base64,"
           {| mimeType := "a"; data := "b;base64," |} eq_refl
           "b" EmptyString eq_refl).
Defined.

(** ** withRetry, generateImage and generateVisualPrompts *)

Lemma requests_app (a b : list Event) : requests (a ++ b) = requests a + requests b.
Proof.
  induction a as [|e a IH]; cbn [app requests]; [reflexivity|].
  destruct e; rewrite ?IH; lia.
Qed.

Lemma requests_after_backoff delay attempt retries w :
  requests (log (after_backoff delay attempt retries w)) = requests (log w).
Proof.
  unfold after_backoff, emit. cbn [log]. rewrite !requests_app.
  cbn [requests]. lia.
Qed.

Lemma pow2_succ (i : Z) : 0 <= i -> 2 ^ (i + 1) = 2 * 2 ^ i.
Proof. intros H. rewrite Z.pow_add_r by lia. change (2 ^ 1) with 2. lia. Qed.

(** X4. An operation that fails with a quota error at every invocation
    and does not wait itself: [withRetry] with [retries >= 1] attempts does
    not return, it throws a quota error, and it has waited
    [initialDelay * (2 ^ (retries - 1) - 1)] in all, that is once after each
    attempt but the last, twice as long each time. *)
Theorem withRetry_exhausts_attempts
  (T : Type) (operation : M T) (retries initialDelay : Z) (w : World) :
  1 <= retries ->
  (forall w0, exists e, fst (operation w0) = Threw e /\ isQuotaError e = true) ->
  (forall w0, waited (log (snd (operation w0))) = waited (log w0)) ->
  exists e w',
    withRetry operation retries initialDelay w = (Threw e, w')
    /\ isQuotaError e = true
    /\ waited (log w') = waited (log w) + initialDelay * (2 ^ (retries - 1) - 1).
Proof.
  intros Hretries Hfails Hquiet. unfold withRetry.
  assert (Hloop : forall remaining i lastError w0,
             0 <= i -> (1 <= remaining)%nat -> Z.of_nat remaining = retries - i ->
             exists e w',
               withRetry_from operation retries initialDelay remaining i lastError w0
               = (Threw e, w')
               /\ isQuotaError e = true
               /\ waited (log w') =
                  waited (log w0) + initialDelay * (2 ^ (retries - 1) - 2 ^ i)).
  { induction remaining as [|n IH]; intros i lastError w0 Hi Hn Hinv; [lia|].
    rewrite withRetry_from_step.
    destruct (Hfails w0) as (e & He & Hq). pose proof (Hquiet w0) as Hw.
    destruct (operation w0) as [r w1]. cbn [fst snd] in He, Hw. subst r.
    rewrite Hq. cbn [andb].
    destruct (i <? retries - 1) eqn:Hlt.
    - apply Z.ltb_lt in Hlt.
      destruct (IH (i + 1) e (after_backoff (initialDelay * 2 ^ i) (i + 1) retries w1))
        as (e' & w' & Hrun & Hq' & Hw'); [lia | lia | lia |].
      exists e', w'. split; [exact Hrun|]. split; [exact Hq'|].
      rewrite Hw', waited_after_backoff, Hw, pow2_succ by lia. lia.
    - apply Z.ltb_ge in Hlt.
      exists e, w1. split; [reflexivity|]. split; [exact Hq|].
      replace i with (retries - 1) by lia. lia. }
  destruct (Hloop (Z.to_nat retries) 0 None w) as (e & w' & Hrun & Hq & Hw);
    [lia | lia | lia |].
  exists e, w'. split; [exact Hrun|]. split; [exact Hq|].
  rewrite Hw. reflexivity.
Qed.

Lemma withRetry_exhausts_attempts_witness :
  let req := image_request (Some "logo") Ratio_1_1 None in
  exists e w',
    withRetry (generateContent Samples.always_limited_backend req) 3 2000 initial_world
    = (Threw e, w')
    /\ isQuotaError e = true
    /\ waited (log w') = waited (log initial_world) + 2000 * (2 ^ (3 - 1) - 1).
Proof.
  intros req.
  apply withRetry_exhausts_attempts.
  - lia.
  - intros w0. exists Fixtures.rate_limited. split; reflexivity.
  - intros w0. apply generateContent_does_not_wait.
Defined.

(** The law of the attempts and the waits of [withRetry], for an operation
    that makes one request at each invocation and does not wait itself. *)
Lemma withRetry_from_law {T} (operation : M T) (retries initialDelay : Z) :
  (forall w, requests (log (snd (operation w))) = requests (log w) + 1
             /\ waited (log (snd (operation w))) = waited (log w)) ->
  forall remaining i lastError w,
    0 <= i -> (1 <= remaining)%nat -> Z.of_nat remaining = retries - i ->
    let w' := snd (withRetry_from operation retries initialDelay remaining i lastError w) in
    exists r,
      1 <= r <= Z.of_nat remaining
      /\ requests (log w') = requests (log w) + r
      /\ waited (log w') = waited (log w) + initialDelay * (2 ^ (i + r - 1) - 2 ^ i).
Proof.
  intros Hop. induction remaining as [|n IH]; intros i lastError w Hi Hn Hinv; [lia|].
  cbn zeta. rewrite withRetry_from_step.
  destruct (Hop w) as [Hr Hw].
  destruct (operation w) as [[a|e] w1]; cbn [fst snd] in *.
  - exists 1. split; [lia|]. split; [exact Hr|].
    replace (i + 1 - 1) with i by lia. lia.
  - destruct (isQuotaError e && (i <? retries - 1)) eqn:Hretry.
    + apply andb_true_iff in Hretry as [_ Hlt]. apply Z.ltb_lt in Hlt.
      destruct (IH (i + 1) e (after_backoff (initialDelay * 2 ^ i) (i + 1) retries w1))
        as (r & Hrange & Hr' & Hw'); [lia | lia | lia |].
      exists (r + 1). split; [lia|]. split.
      * rewrite Hr', requests_after_backoff, Hr. lia.
      * rewrite Hw', waited_after_backoff, Hw.
        replace (i + (r + 1) - 1) with (i + 1 + r - 1) by lia.
        rewrite (pow2_succ i) by lia. lia.
    + exists 1. cbn [snd]. split; [lia|]. split; [exact Hr|].
      replace (i + 1 - 1) with i by lia. lia.
Qed.

(** Counts the requests and the waits of a log that ends in known events. *)
Ltac cost_of_log :=
  cbn [fst snd console_error act throw ret emit log images isAnalyzing];
  rewrite ?requests_app, ?waited_app; cbn [requests waited]; lia.

Lemma imageOperation_cost backend prompt aspectRatio referenceImage w :
  let w' := snd (imageOperation backend prompt aspectRatio referenceImage w) in
  requests (log w') = requests (log w) + 1 /\ waited (log w') = waited (log w).
Proof.
  cbn zeta. unfold imageOperation, try_catch, bind, generateContent.
  destruct (backend (log w) _) as [response|e].
  - destruct (response_parts response) as [responseParts|].
    + destruct (first_image responseParts) as [url|];
        cost_of_log.
    + cost_of_log.
  - cost_of_log.
Qed.

Lemma promptsOperation_cost backend JSON_parse userContext imageBase64 w :
  let w' := snd (promptsOperation backend JSON_parse userContext imageBase64 w) in
  requests (log w') = requests (log w) + 1 /\ waited (log w') = waited (log w).
Proof.
  cbn zeta. unfold promptsOperation, try_catch, bind, generateContent.
  destruct (backend (log w) _) as [response|e].
  - destruct (or_undefined (response_text response)) as [text|].
    + destruct (JSON_parse text) as [v|e];
        cost_of_log.
    + cost_of_log.
  - cost_of_log.
Qed.

(** X5. Whatever the backend does, one call of [generateImage] makes one,
    two or three requests, and after [r] requests it has waited
    [2000 * (2 ^ (r - 1) - 1)] ms: nothing, 2000 or 6000. *)
Theorem generateImage_attempts_and_waits
  (backend : Backend) (prompt : option string) (aspectRatio : AspectRatio)
  (referenceImage : option string) (w : World) :
  let w' := snd (generateImage backend prompt aspectRatio referenceImage w) in
  exists r,
    1 <= r <= 3
    /\ requests (log w') = requests (log w) + r
    /\ waited (log w') = waited (log w) + 2000 * (2 ^ (r - 1) - 1).
Proof.
  cbn zeta. unfold generateImage, withRetry. change (Z.to_nat 3) with 3%nat.
  destruct (withRetry_from_law
              (imageOperation backend prompt aspectRatio referenceImage) 3 2000
              (imageOperation_cost backend prompt aspectRatio referenceImage)
              3%nat 0 None w) as (r & Hrange & Hr & Hw); [lia | lia | lia |].
  exists r. split; [lia|]. split; [exact Hr|].
  rewrite Hw. replace (0 + r - 1) with (r - 1) by lia. reflexivity.
Qed.

(** X6. When the backend answers the first request of [generateImage],
    that answer decides the call, with or without an image in it: the image
    is returned, or the error is logged and thrown, and in either case no
    second request is made and nothing is waited for. *)
Theorem generateImage_answer_is_final
  (backend : Backend) (prompt : option string) (aspectRatio : AspectRatio)
  (referenceImage : option string) (w : World) (response : GenerateContentResponse) :
  let req := image_request prompt aspectRatio referenceImage in
  backend (log w) req = Returned response ->
  generateImage backend prompt aspectRatio referenceImage w =
  let failed msg :=
    (Threw (new_Error msg),
     emit (EvConsoleError "Error generating image:" (new_Error msg))
       (emit (EvRequest req) w)) in
  match response_parts response with
  | None => failed "No content parts returned"
  | Some responseParts =>
      match first_image responseParts with
      | Some url => (Returned url, emit (EvRequest req) w)
      | None => failed "No image data found in response"
      end
  end.
Proof.
  intros req Hanswer. unfold generateImage, withRetry.
  change (Z.to_nat 3) with 3%nat. rewrite withRetry_from_step.
  unfold imageOperation, try_catch, bind, generateContent. fold req.
  rewrite Hanswer.
  destruct (response_parts response) as [responseParts|]; [|reflexivity].
  destruct (first_image responseParts) as [url|]; reflexivity.
Qed.

Lemma generateImage_answer_is_final_witness :
  generateImage Fixtures.no_image_backend (Some "logo") Ratio_1_1 None initial_world
  = (Threw (new_Error "No content parts returned"),
     emit (EvConsoleError "Error generating image:"
             (new_Error "No content parts returned"))
       (emit (EvRequest (image_request (Some "logo") Ratio_1_1 None)) initial_world)).
Proof.
  exact (generateImage_answer_is_final Fixtures.no_image_backend (Some "logo")
           Ratio_1_1 None initial_world Fixtures.no_content eq_refl).
Defined.

(** X7. When the backend answers the first request of
    [generateVisualPrompts]: without text the call throws "No text returned
    from Gemini", with a text that [JSON.parse] accepts it returns the parsed
    value, and with a text whose parse error is not a quota error it throws
    that error; in each case after this one request, without waiting. *)
Theorem generateVisualPrompts_answer_is_final
  (backend : Backend) (JSON_parse : JsonParser) (userContext : string)
  (imageBase64 : option string) (w : World) (response : GenerateContentResponse) :
  let req := prompts_request userContext imageBase64 in
  backend (log w) req = Returned response ->
  match or_undefined (response_text response) with
  | Some text =>
      match JSON_parse text with
      | Returned _ => True
      | Threw e => isQuotaError e = false
      end
  | None => True
  end ->
  generateVisualPrompts backend JSON_parse userContext imageBase64 w =
  let failed e :=
    (Threw e,
     emit (EvConsoleError "Error generating prompts:" e) (emit (EvRequest req) w)) in
  match or_undefined (response_text response) with
  | None => failed (new_Error "No text returned from Gemini")
  | Some text =>
      match JSON_parse text with
      | Returned visualPrompts => (Returned visualPrompts, emit (EvRequest req) w)
      | Threw e => failed e
      end
  end.
Proof.
  intros req Hanswer Hparse. unfold generateVisualPrompts, withRetry.
  change (Z.to_nat 3) with 3%nat. rewrite withRetry_from_step.
  unfold promptsOperation, try_catch, bind, generateContent. fold req.
  rewrite Hanswer.
  destruct (or_undefined (response_text response)) as [text|]; [|reflexivity].
  destruct (JSON_parse text) as [v|e]; [reflexivity|].
  cbn [console_error act throw fst snd]. rewrite Hparse. reflexivity.
Qed.

Lemma generateVisualPrompts_answer_is_final_witness :
  generateVisualPrompts Fixtures.good_backend Fixtures.parser Fixtures.context None
    initial_world
  = (Returned Fixtures.prompts,
     emit (EvRequest (prompts_request Fixtures.context None)) initial_world).
Proof.
  exact (generateVisualPrompts_answer_is_final Fixtures.good_backend Fixtures.parser
           Fixtures.context None initial_world Fixtures.answer eq_refl I).
Defined.

Lemma first_image_cons (part : ResponsePart) (rest : list ResponsePart) :
  first_image (part :: rest) =
  if carries_image part then Some (data_uri part) else first_image rest.
Proof.
  cbn [first_image]. unfold carries_image, data_uri.
  destruct (part_inlineData part) as [d|]; [|reflexivity].
  destruct (truthy_opt (r_data d)); reflexivity.
Qed.

(** X8. The image that [generateImage] takes from a response is the data
    URI of the first part that carries inline data; parts without data
    before it are passed over, and no image is found exactly when no part
    carries any. *)
Theorem first_image_is_first_with_data (responseParts : list ResponsePart) :
  match first_image responseParts with
  | Some url =>
      exists before part after,
        responseParts = before ++ part :: after
        /\ forallb (fun p => negb (carries_image p)) before = true
        /\ carries_image part = true
        /\ url = data_uri part
  | None => forallb (fun p => negb (carries_image p)) responseParts = true
  end.
Proof.
  induction responseParts as [|part rest IH]; [reflexivity|].
  rewrite first_image_cons.
  destruct (carries_image part) eqn:Hc.
  - exists [], part, rest. auto.
  - destruct (first_image rest) as [url|].
    + destruct IH as (before & p & after & Hrest & Hb & Hp & Hurl).
      exists (part :: before), p, after. cbn [forallb app].
      rewrite Hc, Hrest. auto.
    + cbn [forallb]. now rewrite Hc.
Qed.

(** X9. A reference image that is a data URI goes into every request of
    [generateVisualPrompts] and of [generateImage] as the second part, after
    the text, and its mime type and data put the image together again: the
    image is passed on as it is. *)
Theorem reference_image_is_passed_on
  (userContext : string) (prompt : option string) (aspectRatio : AspectRatio)
  (img : string) :
  matches_data_uri img ->
  exists p,
    img = ("data:" ++ mimeType p ++ ";base64," ++ data p)%string
    /\ parts (prompts_request userContext (Some img))
       = [TextPart (Some userContext); InlineDataPart p]
    /\ parts (image_request prompt aspectRatio (Some img))
       = [TextPart prompt; InlineDataPart p].
Proof.
  intros Hmatch. apply parseBase64_matches in Hmatch.
  destruct (parseBase64 img) as [p|] eqn:Hp; [|congruence].
  exists p. split; [now apply parseBase64_reassembles|].
  assert (Ht : or_undefined (Some img) = Some img).
  { apply parseBase64_reassembles in Hp as (-> & _). reflexivity. }
  unfold prompts_request, image_request, request_parts. cbn [parts].
  rewrite Ht, Hp. destruct p. split; reflexivity.
Qed.

Lemma reference_image_is_passed_on_witness :
  exists p,
    "data:image/png;base64,iVBOR"
    = ("data:" ++ mimeType p ++ ";base64," ++ data p)%string
    /\ parts (prompts_request Fixtures.context (Some "data:image/png;base64,iVBOR"))
       = [TextPart (Some Fixtures.context); InlineDataPart p]
    /\ parts (image_request (Some "logo") Ratio_1_1 (Some "data:image/png;base64,iVBOR"))
       = [TextPart (Some "logo"); InlineDataPart p].
Proof.
  apply reference_image_is_passed_on.
  apply parseBase64_matches. discriminate.
Defined.

(** ** The guard of handleGenerateAll *)

Lemma trimStart_white_space (s : string) :
  all_white_space (JsString.trimStart s) = all_white_space s.
Proof.
  induction s as [|c s IH]; [reflexivity|].
  cbn [JsString.trimStart all_white_space].
  destruct (JsString.isWhiteSpace c) eqn:E; [exact IH|].
  cbn [all_white_space]. now rewrite E.
Qed.

Lemma trimEnd_empty (s : string) :
  JsString.trimEnd s = EmptyString <-> all_white_space s = true.
Proof.
  induction s as [|c s IH]; [split; reflexivity|].
  cbn [JsString.trimEnd all_white_space].
  destruct (JsString.trimEnd s) as [|x t].
  - destruct (JsString.isWhiteSpace c); cbn [andb].
    + split; intros _; [now apply IH | reflexivity].
    + split; discriminate.
  - split; [discriminate|]. intros H. apply andb_true_iff in H as [_ H].
    apply IH in H. discriminate.
Qed.

(** X10. [handleGenerateAll] declines to start exactly when every
    character of the input is white space and there is no reference image,
    or an empty one; with any other character in the input, or with an image,
    it starts. *)
Theorem guard_is_white_space_only (userInput : string) (selectedImage : option string) :
  nothing_to_generate userInput selectedImage = true
  <-> all_white_space userInput = true
      /\ (selectedImage = None \/ selectedImage = Some EmptyString).
Proof.
  unfold nothing_to_generate, truthy_opt, JsString.trim.
  rewrite andb_true_iff, !negb_true_iff.
  assert (Htext : JsString.truthy (JsString.trimEnd (JsString.trimStart userInput)) = false
                  <-> all_white_space userInput = true).
  { rewrite <- trimStart_white_space, <- trimEnd_empty.
    destruct (JsString.trimEnd (JsString.trimStart userInput));
      split; (reflexivity || discriminate). }
  rewrite Htext.
  assert (Himage : match or_undefined selectedImage with Some _ => true | None => false end
                   = false
                   <-> selectedImage = None \/ selectedImage = Some EmptyString).
  { destruct selectedImage as [[|c s]|]; cbn; split; intros H; auto;
      try discriminate; destruct H; discriminate. }
  now rewrite Himage.
Qed.

(** ** The bundle *)

Lemma js_split_free (sep : ascii) (s : string) :
  free_of sep s = true -> js_split sep s = [s].
Proof.
  induction s as [|c s IH]; [reflexivity|].
  cbn [free_of js_split]. intros H. apply andb_true_iff in H as [Hc Hs].
  apply negb_true_iff in Hc. rewrite Hc, (IH Hs). reflexivity.
Qed.

Lemma js_split_at (sep : ascii) (a b : string) :
  free_of sep a = true ->
  js_split sep (a ++ String sep b)%string = a :: js_split sep b.
Proof.
  induction a as [|c a IH]; intros H.
  - cbn [append js_split]. now rewrite Ascii.eqb_refl.
  - cbn [free_of] in H. apply andb_true_iff in H as [Hc Ha].
    apply negb_true_iff in Hc.
    cbn [append js_split]. rewrite Hc, (IH Ha). reflexivity.
Qed.

Lemma free_of_append (c : ascii) (a b : string) :
  free_of c (a ++ b)%string = free_of c a && free_of c b.
Proof.
  induction a as [|x a IH]; [reflexivity|].
  cbn [append free_of]. now rewrite IH, andb_assoc.
Qed.

Lemma data_uri_split (mime payload : string) :
  free_of "," mime = true ->
  free_of "," payload = true ->
  js_split "," ("data:" ++ mime ++ ";base64," ++ payload)%string
  = [("data:" ++ mime ++ ";base64")%string; payload].
Proof.
  intros Hm Hp.
  replace ("data:" ++ mime ++ ";base64," ++ payload)%string
    with (("data:" ++ mime ++ ";base64") ++ String "," payload)%string
    by (rewrite !string_append_assoc; reflexivity).
  rewrite js_split_at, (js_split_free _ _ Hp); [reflexivity|].
  rewrite !free_of_append, Hm. reflexivity.
Qed.

(** X11. The payload that the bundle takes from a success is the data of
    the data URI that [generateImage] stored: for a mime type and data
    without a comma, the data not empty, the piece after the first comma of
    "data:<mime>;base64,<data>" is the data. *)
Theorem bundle_payload_is_image_data (state : ImageState) (mime payload : string) :
  free_of "," mime = true ->
  free_of "," payload = true ->
  payload <> EmptyString ->
  bundle_payload
    (spread state (set_success ("data:" ++ mime ++ ";base64," ++ payload)%string))
  = Some payload.
Proof.
  intros Hm Hp Hne. unfold bundle_payload.
  cbn [spread set_success set_status set_imageUrl status imageUrl].
  assert (Hurl : or_undefined (Some ("data:" ++ mime ++ ";base64," ++ payload)%string)
                 = Some ("data:" ++ mime ++ ";base64," ++ payload)%string)
    by reflexivity.
  rewrite Hurl, (data_uri_split _ _ Hm Hp). cbn [nth_error or_undefined].
  apply truthy_nonempty in Hne. now rewrite Hne.
Qed.

Lemma bundle_payload_is_image_data_witness :
  bundle_payload
    (spread idle_state
       (set_success ("data:" ++ "image/png" ++ ";base64," ++ "iVBOR")%string))
  = Some "iVBOR".
Proof.
  apply bundle_payload_is_image_data; solve [reflexivity | discriminate].
Defined.


Lemma handleDownloadAll_bundle_files (images : Images) (timestamp : Z) :
  handleDownloadAll images timestamp <> None ->
  exists k base64Data, bundle_payload (get k images) = Some base64Data.
Proof.
  unfold handleDownloadAll, PLATFORMS, bundle_step.
  cbn [fold_left key get fst snd].
  destruct (bundle_payload (at_linkedin images)) as [d1|] eqn:E1;
    [intros _; now exists linkedin, d1|].
  destruct (bundle_payload (at_twitter images)) as [d2|] eqn:E2;
    [intros _; now exists twitter, d2|].
  destruct (bundle_payload (at_instagram images)) as [d3|] eqn:E3;
    [intros _; now exists instagram, d3|].
  destruct (bundle_payload (at_blog images)) as [d4|] eqn:E4;
    [intros _; now exists blog, d4|].
  cbn. congruence.
Qed.

(** X13. An archive is offered only when the "Download All" button is
    there: when [handleDownloadAll] has something to download, some platform
    is a success. *)
Theorem download_needs_a_success (images : Images) (timestamp : Z) :
  handleDownloadAll images timestamp <> None ->
  hasSuccessfulImages images = true.
Proof.
  intros H.
  destruct (handleDownloadAll_bundle_files images timestamp H) as (k & d & Hk).
  unfold bundle_payload in Hk.
  unfold hasSuccessfulImages. cbn [existsb].
  destruct k; cbn [get] in Hk;
    match type of Hk with
    | context [status ?s] => destruct (status s); try discriminate
    end;
    rewrite ?orb_true_r; reflexivity.
Qed.

Lemma download_needs_a_success_witness :
  hasSuccessfulImages Samples.two_images = true.
Proof.
  apply (download_needs_a_success Samples.two_images 1730570000123).
  discriminate.
Defined.

Example handleDownloadAll_two_images :
  handleDownloadAll Samples.two_images 1730570000123
  = Some {| download := "creator-studio-assets-1730570000123.zip";
            content :=
              [ {| file_name := "creator-studio-linkedin-1730570000123.png";
                   file_data := "iVBOR" |};
                {| file_name := "creator-studio-blog-1730570000123.png";
                   file_data := "/9j/4A" |} ] |}.
Proof. reflexivity. Qed.

Example handleDownloadAll_nothing :
  handleDownloadAll initial_images 1730570000123 = None.
Proof. reflexivity. Qed.

(** ** The filters of a card *)

(** X14. The active filter of a card is always one of the table: the one
    with the requested id when there is one, and the first, "Normal", for
    any other id; the download of a card sets a canvas filter exactly for
    the ids bw, sepia, vibrant and cinematic. *)
Theorem activeFilter_falls_back (activeFilterId : string) :
  In (activeFilter activeFilterId) FILTERS
  /\ (forall f, In f FILTERS -> id f = activeFilterId -> activeFilter activeFilterId = f)
  /\ ((forall f, In f FILTERS -> id f <> activeFilterId) ->
      activeFilter activeFilterId
      = {| id := "none"; filter_label := "Normal"; filter_css := "none" |})
  /\ (download_applies_filter activeFilterId = true
      <-> In activeFilterId ["bw"; "sepia"; "vibrant"; "cinematic"]).
Proof.
  unfold download_applies_filter, activeFilter, FILTERS. cbn [find id hd].
  destruct (String.eqb "none" activeFilterId) eqn:E0;
    [apply String.eqb_eq in E0; subst; cbn;
     repeat split; auto; try discriminate;
     [ intros f [<-|[<-|[<-|[<-|[<-|[]]]]]]; (reflexivity || discriminate)
     | intuition discriminate ] |].
  destruct (String.eqb "bw" activeFilterId) eqn:E1;
    [apply String.eqb_eq in E1; subst; cbn;
     repeat split; auto; try discriminate;
     [ intros f [<-|[<-|[<-|[<-|[<-|[]]]]]]; (reflexivity || discriminate)
     | intros H; exfalso; apply (H _ (or_intror (or_introl eq_refl))); reflexivity ] |].
  destruct (String.eqb "sepia" activeFilterId) eqn:E2;
    [apply String.eqb_eq in E2; subst; cbn;
     repeat split; auto; try discriminate;
     [ intros f [<-|[<-|[<-|[<-|[<-|[]]]]]]; (reflexivity || discriminate)
     | intros H; exfalso;
       apply (H _ (or_intror (or_intror (or_introl eq_refl)))); reflexivity ] |].
  destruct (String.eqb "vibrant" activeFilterId) eqn:E3;
    [apply String.eqb_eq in E3; subst; cbn;
     repeat split; auto; try discriminate;
     [ intros f [<-|[<-|[<-|[<-|[<-|[]]]]]]; (reflexivity || discriminate)
     | intros H; exfalso;
       apply (H _ (or_intror (or_intror (or_intror (or_introl eq_refl)))));
       reflexivity ] |].
  destruct (String.eqb "cinematic" activeFilterId) eqn:E4;
    [apply String.eqb_eq in E4; subst; cbn;
     repeat split; auto 6; try discriminate;
     [ intros f [<-|[<-|[<-|[<-|[<-|[]]]]]]; (reflexivity || discriminate)
     | intros H; exfalso;
       apply (H _ (or_intror (or_intror (or_intror (or_intror (or_introl eq_refl))))));
       reflexivity ] |].
  apply String.eqb_neq in E0, E1, E2, E3, E4.
  cbn. repeat split; auto; try discriminate.
  - intros f [<-|[<-|[<-|[<-|[<-|[]]]]]]; cbn; congruence.
  - intuition congruence.
Qed.

(** ** The isAnalyzing flag *)

Lemma flag_stable_bind {A B} (m : M A) (k : A -> M B) :
  flag_stable m -> (forall a, flag_stable (k a)) -> flag_stable (bind m k).
Proof.
  intros Hm Hk w. unfold bind. specialize (Hm w).
  destruct (m w) as [[a|e] w1]; cbn [snd] in *; [|exact Hm].
  now rewrite Hk.
Qed.

Lemma flag_stable_try {A} (m : M A) (handler : Thrown -> M A) :
  flag_stable m -> (forall e, flag_stable (handler e)) ->
  flag_stable (try_catch m handler).
Proof.
  intros Hm Hh w. unfold try_catch. specialize (Hm w).
  destruct (m w) as [[a|e] w1]; cbn [snd] in *; [exact Hm|].
  now rewrite Hh.
Qed.

Lemma flag_stable_ret {A} (a : A) : flag_stable (ret a).
Proof. intros w. reflexivity. Qed.

Lemma flag_stable_throw {A} e : flag_stable (@throw A e).
Proof. intros w. reflexivity. Qed.

Lemma flag_stable_emit e : flag_stable (act (emit e)).
Proof. intros w. reflexivity. Qed.

Lemma flag_stable_updateImageState k newState :
  flag_stable (updateImageState k newState).
Proof. intros w. reflexivity. Qed.

Lemma flag_stable_forEach {A} (l : list A) (f : A -> M unit) :
  (forall x, flag_stable (f x)) -> flag_stable (forEach l f).
Proof.
  intros Hf. induction l as [|x l IH]; [apply flag_stable_ret|].
  cbn [forEach]. apply flag_stable_bind; auto.
Qed.

Lemma flag_stable_withRetry {T} (operation : M T) retries initialDelay :
  flag_stable operation -> flag_stable (withRetry operation retries initialDelay).
Proof.
  intros Hop. unfold withRetry. generalize (Z.to_nat retries) 0 (@None JsError.t).
  induction n as [|n IH]; intros i lastError; [apply flag_stable_throw|].
  cbn [withRetry_from]. apply flag_stable_try; [exact Hop|].
  intros e. destruct (isQuotaError e && (i <? retries - 1)); [|apply flag_stable_throw].
  apply flag_stable_bind; [apply flag_stable_emit|]. intros _.
  apply flag_stable_bind; [apply flag_stable_emit|]. intros _. apply IH.
Qed.

Lemma flag_stable_generateImage backend prompt aspectRatio referenceImage :
  flag_stable (generateImage backend prompt aspectRatio referenceImage).
Proof.
  apply flag_stable_withRetry. unfold imageOperation.
  apply flag_stable_try.
  - apply flag_stable_bind; [intros w; reflexivity|]. intros response.
    destruct (response_parts response) as [ps|]; [|apply flag_stable_throw].
    destruct (first_image ps); [apply flag_stable_ret | apply flag_stable_throw].
  - intros e. apply flag_stable_bind; [apply flag_stable_emit|].
    intros _. apply flag_stable_throw.
Qed.

Lemma flag_stable_triggerImageGeneration backend k prompt aspectRatio refImage :
  flag_stable (triggerImageGeneration backend k prompt aspectRatio refImage).
Proof.
  unfold triggerImageGeneration.
  apply flag_stable_bind; [apply flag_stable_updateImageState|]. intros _.
  apply flag_stable_try.
  - apply flag_stable_bind; [apply flag_stable_generateImage|].
    intros url. apply flag_stable_updateImageState.
  - intros e. apply flag_stable_updateImageState.
Qed.

Lemma flag_stable_platform_prompt visualPrompts k :
  flag_stable (platform_prompt visualPrompts k).
Proof.
  unfold platform_prompt.
  destruct (platforms visualPrompts); [apply flag_stable_ret | apply flag_stable_throw].
Qed.

Lemma flag_stable_plan_and_render backend visualPrompts selectedImage :
  flag_stable (plan_all visualPrompts ;; render_all backend visualPrompts selectedImage).
Proof.
  apply flag_stable_bind.
  - apply flag_stable_forEach. intros p.
    apply flag_stable_bind; [apply flag_stable_platform_prompt|].
    intros pr. apply flag_stable_updateImageState.
  - intros _. apply flag_stable_forEach. intros p. unfold render_step.
    apply flag_stable_bind; [apply flag_stable_platform_prompt|]. intros pr.
    apply flag_stable_bind; [apply flag_stable_triggerImageGeneration|]. intros _.
    apply flag_stable_emit.
Qed.

Lemma flag_stable_fail_all : flag_stable fail_all.
Proof.
  apply flag_stable_forEach. intros p. apply flag_stable_updateImageState.
Qed.

(** X15. Every run of [handleGenerateAll] that passes the guard ends with
    [isAnalyzing] false, whether the derivation returned, threw, or returned
    a value without prompts: the "Generate Assets" button, which is disabled
    while the flag is up, is enabled again for the same input. *)
Theorem generateAll_releases_isAnalyzing
  (backend : Backend) (JSON_parse : JsonParser)
  (userInput : string) (selectedImage : option string) (w : World) :
  nothing_to_generate userInput selectedImage = false ->
  let w' := snd (handleGenerateAll backend JSON_parse userInput selectedImage w) in
  isAnalyzing w' = false
  /\ generate_disabled userInput selectedImage w' = false.
Proof.
  intros Hguard. cbn zeta.
  assert (Hflag : isAnalyzing
                    (snd (handleGenerateAll backend JSON_parse userInput
                            selectedImage w)) = false).
  { rewrite (handleGenerateAll_unfold backend JSON_parse userInput selectedImage w Hguard).
    cbn zeta.
    assert (Hhandler : forall e w0,
               isAnalyzing
                 (snd ((console_error EmptyString e ;; setIsAnalyzing false ;; fail_all)
                         w0)) = false).
    { intros e w0. unfold bind, console_error, setIsAnalyzing, act. cbn [fst snd].
      now rewrite flag_stable_fail_all. }
    destruct (derivation backend JSON_parse userInput selectedImage w)
      as [[visualPrompts|e] w1]; [|apply Hhandler].
    unfold try_catch.
    destruct ((setIsAnalyzing false ;;
               plan_all visualPrompts ;;
               render_all backend visualPrompts selectedImage) w1)
      as [[[]|e] w2] eqn:E; [|apply Hhandler].
    unfold bind at 1 in E. unfold setIsAnalyzing, act in E.
    pose proof (flag_stable_plan_and_render backend visualPrompts selectedImage
                  {| images := images w1; isAnalyzing := false; log := log w1 |})
      as Hstable.
    rewrite E in Hstable. exact Hstable. }
  split; [exact Hflag|].
  unfold generate_disabled, Button_disabled. now rewrite Hguard, Hflag.
Qed.

Lemma generateAll_releases_isAnalyzing_witness :
  let w' := snd (handleGenerateAll Fixtures.down_backend Fixtures.parser
                   Fixtures.context None initial_world) in
  isAnalyzing w' = false
  /\ generate_disabled Fixtures.context None w' = false.
Proof.
  apply generateAll_releases_isAnalyzing. reflexivity.
Defined.

(** ** Regeneration after a run *)

(** X16. After a run whose prompt derivation failed, a platform that had
    no prompt before shows a "Regenerate" button that can be clicked, and
    the click does nothing: [handleRegenerateSingle] leaves the world as it
    is, for want of a prompt. *)
Theorem regenerate_after_failed_analysis_does_nothing
  (backend : Backend) (JSON_parse : JsonParser)
  (userInput : string) (selectedImage : option string) (w : World) (e : Thrown)
  (k : PlatformKey) (backend' : Backend) (selectedImage' : option string) :
  nothing_to_generate userInput selectedImage = false ->
  fst (derivation backend JSON_parse userInput selectedImage w) = Threw e ->
  or_undefined (prompt (get k (images w))) = None ->
  let w' := snd (handleGenerateAll backend JSON_parse userInput selectedImage w) in
  regenerate_enabled (get k (images w')) = true
  /\ handleRegenerateSingle backend' selectedImage' k w' = (Returned tt, w').
Proof.
  intros Hguard Hfailed Hprompt. cbn zeta.
  destruct (handleGenerateAll_run backend JSON_parse userInput selectedImage w Hguard)
    as (tail & rest & w' & Hrun & _ & Hi & _ & Hrest).
  rewrite Hfailed in Hrest. subst rest. rewrite Hrun. cbn [snd].
  assert (Hk : get k (images w')
               = spread (spread (get k (images w)) set_idle)
                   (set_error "Failed to analyze context."))
    by (rewrite Hi; apply replay_reset_fail).
  split.
  - rewrite Hk. reflexivity.
  - unfold handleRegenerateSingle. rewrite Hk.
    cbn [spread set_idle set_error set_prompt prompt]. now rewrite Hprompt.
Qed.

Lemma regenerate_after_failed_analysis_does_nothing_witness :
  let w' := snd (handleGenerateAll Fixtures.down_backend Fixtures.parser
                   Fixtures.context None initial_world) in
  regenerate_enabled (get instagram (images w')) = true
  /\ handleRegenerateSingle Fixtures.good_backend None instagram w' = (Returned tt, w').
Proof.
  apply (regenerate_after_failed_analysis_does_nothing Fixtures.down_backend
           Fixtures.parser Fixtures.context None initial_world
           (new_Error "Service unavailable"));
    reflexivity.
Defined.

(** The record of every platform after a run whose derivation returned the
    prompts: reset, planned, set to loading and given the outcome of its
    render. *)
Lemma handleGenerateAll_rendered_store
  backend JSON_parse userInput selectedImage w visualPrompts entries :
  nothing_to_generate userInput selectedImage = false ->
  fst (derivation backend JSON_parse userInput selectedImage w)
  = Returned visualPrompts ->
  platforms visualPrompts = Some entries ->
  exists segs w',
    handleGenerateAll backend JSON_parse userInput selectedImage w = (Returned tt, w')
    /\ (exists before, events_since w w' = before ++ List.concat segs)
    /\ Forall2 (render_segment entries selectedImage) PLATFORMS segs
    /\ forall k,
         exists outcome,
           render_outcome outcome
           /\ get k (images w') =
              spread (spread (spread (spread (get k (images w)) set_idle)
                                (set_loading (entries k)))
                        (set_loading (entries k))) outcome.
Proof.
  intros Hguard Hderived Hentries.
  destruct (handleGenerateAll_run backend JSON_parse userInput selectedImage w Hguard)
    as (tail & rest & w' & Hrun & L & Hi & _ & Hrest).
  rewrite Hderived, Hentries in Hrest. destruct Hrest as (segs & -> & Hsegs).
  exists segs, w'. split; [exact Hrun|]. split; [|split; [exact Hsegs|]].
  - exists (reset_events
               ++ EvRequest (prompts_request userInput (or_undefined selectedImage))
               :: tail ++ plan_events entries).
    apply events_since_app. rewrite L.
    rewrite <- !app_assoc. cbn [app]. now rewrite <- !app_assoc.
  - intros k. rewrite Hi, !replay_app.
    destruct (replay_segments entries selectedImage segs
                (replay (replay (images w) reset_events) (plan_events entries))
                Hsegs) as (outcome & Hout & E).
    exists (outcome k). split; [apply Hout|].
    now rewrite E, replay_plan, replay_reset.
Qed.

(** X17. After a run whose derivation returned the prompts, the record of
    every platform holds the prompt derived for it, and either the platform
    is a success with a new non-empty image and no errorMsg, or it is an
    error with the message "Generation failed." and still holds the image,
    if any, that it had before the run. *)
Theorem generateAll_records_after_rendering
  (backend : Backend) (JSON_parse : JsonParser)
  (userInput : string) (selectedImage : option string) (w : World)
  (visualPrompts : VisualPrompts) (entries : PlatformKey -> option string)
  (k : PlatformKey) :
  nothing_to_generate userInput selectedImage = false ->
  fst (derivation backend JSON_parse userInput selectedImage w)
  = Returned visualPrompts ->
  platforms visualPrompts = Some entries ->
  let s := get k (images (snd (handleGenerateAll backend JSON_parse userInput
                                 selectedImage w))) in
  prompt s = entries k
  /\ ((status s = success /\ errorMsg s = None
       /\ exists url, imageUrl s = Some url /\ url <> EmptyString)
      \/ (status s = error /\ errorMsg s = Some "Generation failed."
          /\ imageUrl s = imageUrl (get k (images w)))).
Proof.
  intros Hguard Hderived Hentries. cbn zeta.
  destruct (handleGenerateAll_rendered_store backend JSON_parse userInput
              selectedImage w visualPrompts entries Hguard Hderived Hentries)
    as (segs & w' & Hrun & _ & _ & Hstore).
  rewrite Hrun. cbn [snd].
  destruct (Hstore k) as (outcome & [-> | (url & Hurl & ->)] & ->).
  - split; [reflexivity|]. right. repeat split.
  - split; [reflexivity|]. left. repeat split. exists url. auto.
Qed.

Lemma generateAll_records_after_rendering_witness :
  let s := get twitter
             (images (snd (handleGenerateAll Fixtures.no_image_backend Fixtures.parser
                             Fixtures.context None Fixtures.after_good_run))) in
  prompt s = Some "header, subject centred"
  /\ ((status s = success /\ errorMsg s = None
       /\ exists url, imageUrl s = Some url /\ url <> EmptyString)
      \/ (status s = error /\ errorMsg s = Some "Generation failed."
          /\ imageUrl s = imageUrl (get twitter (images Fixtures.after_good_run)))).
Proof.
  exact (generateAll_records_after_rendering Fixtures.no_image_backend Fixtures.parser
           Fixtures.context None Fixtures.after_good_run Fixtures.prompts
           Samples.entries twitter eq_refl eq_refl eq_refl).
Defined.

Lemma Forall2_In_left {A B} (R : A -> B -> Prop) l l' x :
  Forall2 R l l' -> In x l -> exists y, In y l' /\ R x y.
Proof.
  induction 1 as [|a b l l' Hab _ IH]; intros Hin; [contradiction|].
  destruct Hin as [<- | Hin].
  - exists b. split; [now left | exact Hab].
  - destruct (IH Hin) as (y & Hy & Hr). exists y. split; [now right | exact Hr].
Qed.

(** X18. After a run whose derivation returned a non-empty prompt for a
    platform, regenerating that platform with the same reference image makes
    the very request that the run made for it: the same prompt, aspect ratio
    and image. *)
Theorem regenerate_repeats_the_request_of_the_run
  (backend : Backend) (JSON_parse : JsonParser)
  (userInput : string) (selectedImage : option string) (w : World)
  (visualPrompts : VisualPrompts) (entries : PlatformKey -> option string)
  (k : PlatformKey) (cached : string) (backend' : Backend) :
  nothing_to_generate userInput selectedImage = false ->
  fst (derivation backend JSON_parse userInput selectedImage w)
  = Returned visualPrompts ->
  platforms visualPrompts = Some entries ->
  entries k = Some cached -> cached <> EmptyString ->
  let w' := snd (handleGenerateAll backend JSON_parse userInput selectedImage w) in
  let w'' := snd (handleRegenerateSingle backend' selectedImage k w') in
  exists cfg tail,
    In cfg PLATFORMS /\ key cfg = k
    /\ let req := image_request (Some cached) (apiAspectRatio cfg)
                    (or_undefined selectedImage) in
       In (EvRequest req) (events_since w w')
       /\ events_since w' w'' =
          EvSetImages k (set_loading (Some cached)) :: EvRequest req :: tail.
Proof.
  intros Hguard Hderived Hentries Hk Hne. cbn zeta.
  destruct (handleGenerateAll_rendered_store backend JSON_parse userInput
              selectedImage w visualPrompts entries Hguard Hderived Hentries)
    as (segs & w' & Hrun & (before & Hevents) & Hsegs & Hstore).
  rewrite Hrun. cbn [snd].
  destruct (find_platform k) as (cfg & Hfind & Hin & Hkey).
  destruct (Forall2_In_left _ _ _ cfg Hsegs Hin) as (seg & Hseg & Hsegment).
  destruct Hsegment as (body & outcome & -> & _ & _).
  rewrite Hkey, Hk in Hseg.
  unfold handleRegenerateSingle. rewrite Hfind.
  destruct (Hstore k) as (o & Ho & Hrecord).
  assert (Hprompt : or_undefined (prompt (get k (images w'))) = Some cached).
  { rewrite Hrecord, Hk.
    destruct Ho as [-> | (url & _ & ->)];
      cbn [spread set_error set_success set_loading set_prompt prompt or_undefined];
      apply truthy_nonempty in Hne; now rewrite Hne. }
  rewrite Hprompt.
  destruct (steps_triggerImageGeneration backend' k (Some cached) (apiAspectRatio cfg)
              (or_undefined selectedImage) w')
    as (body' & outcome' & w'' & (Hrun' & L' & _) & _ & _).
  rewrite Hrun'. cbn [snd].
  exists cfg, (body' ++ [EvSetImages k outcome']).
  split; [exact Hin|]. split; [exact Hkey|]. cbn zeta. split.
  - rewrite Hevents. apply in_or_app. right.
    apply in_concat. eexists. split; [exact Hseg|]. right. now left.
  - now apply events_since_app.
Qed.

Lemma regenerate_repeats_the_request_of_the_run_witness :
  let w' := Fixtures.after_failed_renders in
  let w'' := snd (handleRegenerateSingle Fixtures.good_backend None blog w') in
  exists cfg tail,
    In cfg PLATFORMS /\ key cfg = blog
    /\ let req := image_request (Some "wide shot, bottom clear") (apiAspectRatio cfg)
                    (or_undefined None) in
       In (EvRequest req) (events_since initial_world w')
       /\ events_since w' w'' =
          EvSetImages blog (set_loading (Some "wide shot, bottom clear"))
            :: EvRequest req :: tail.
Proof.
  apply (regenerate_repeats_the_request_of_the_run Fixtures.no_image_backend
           Fixtures.parser Fixtures.context None initial_world Fixtures.prompts
           Samples.entries blog "wide shot, bottom clear" Fixtures.good_backend);
    solve [reflexivity | discriminate].
Defined.

(** X19. Regenerating a platform that has a non-empty prompt keeps the
    prompt, so that it can be regenerated again, and ends either in a
    success with a new non-empty image, the errorMsg being left as it was, or
    in an error with the message "Generation failed.", the image being left
    as it was. *)
Theorem regenerate_record
  (backend : Backend) (selectedImage : option string) (k : PlatformKey)
  (w : World) (cached : string) :
  or_undefined (prompt (get k (images w))) = Some cached ->
  let before := get k (images w) in
  let s := get k (images (snd (handleRegenerateSingle backend selectedImage k w))) in
  or_undefined (prompt s) = Some cached
  /\ ((status s = success /\ errorMsg s = errorMsg before
       /\ exists url, imageUrl s = Some url /\ url <> EmptyString)
      \/ (status s = error /\ errorMsg s = Some "Generation failed."
          /\ imageUrl s = imageUrl before)).
Proof.
  intros Hprompt. cbn zeta. unfold handleRegenerateSingle. rewrite Hprompt.
  destruct (find_platform k) as (cfg & -> & _ & _).
  destruct (steps_triggerImageGeneration backend k (Some cached) (apiAspectRatio cfg)
              (or_undefined selectedImage) w)
    as (body & outcome & w' & (Hrun & _ & Hi) & Hbody & Hout).
  rewrite Hrun. cbn [snd]. rewrite Hi, !replay_cons. cbn [apply_event].
  rewrite replay_app, (replay_attempt_events _ body _ Hbody).
  cbn [replay fold_left apply_event]. rewrite !get_set_same.
  assert (Hcached : or_undefined (Some cached) = Some cached).
  { unfold or_undefined in Hprompt |- *.
    destruct (prompt (get k (images w))) as [p|]; [|discriminate].
    destruct (JsString.truthy p) eqn:Ht; [|discriminate].
    injection Hprompt as ->. now rewrite Ht. }
  destruct Hout as [-> | (url & Hurl & ->)].
  - split; [exact Hcached|]. right. repeat split.
  - split; [exact Hcached|]. left. repeat split. exists url. auto.
Qed.

Lemma regenerate_record_witness :
  let before := get linkedin (images Fixtures.after_failed_renders) in
  let s := get linkedin (images Fixtures.after_regenerate) in
  or_undefined (prompt s) = Some "cover, subject in the right third"
  /\ ((status s = success /\ errorMsg s = errorMsg before
       /\ exists url, imageUrl s = Some url /\ url <> EmptyString)
      \/ (status s = error /\ errorMsg s = Some "Generation failed."
          /\ imageUrl s = imageUrl before)).
Proof.
  apply (regenerate_record Fixtures.good_backend None linkedin
           Fixtures.after_failed_renders "cover, subject in the right third").
  reflexivity.
Defined.

(** ** The cost of a run *)

Lemma costs_weaken {A} (R W R' W' : Z) (m : M A) :
  costs R W m -> R <= R' -> W <= W' -> costs R' W' m.
Proof. intros H HR HW w. destruct (H w). split; lia. Qed.

Lemma costs_bind {A B} (R1 W1 R2 W2 : Z) (m : M A) (k : A -> M B) :
  costs R1 W1 m -> (forall a, costs R2 W2 (k a)) -> 0 <= R2 -> 0 <= W2 ->
  costs (R1 + R2) (W1 + W2) (bind m k).
Proof.
  intros Hm Hk HR HW w. unfold bind. destruct (Hm w) as [Hr Hw].
  destruct (m w) as [[a|e] w1]; cbn [snd] in *; [|split; lia].
  destruct (Hk a w1). split; lia.
Qed.

Lemma costs_try {A} (R1 W1 R2 W2 : Z) (m : M A) (handler : Thrown -> M A) :
  costs R1 W1 m -> (forall e, costs R2 W2 (handler e)) -> 0 <= R2 -> 0 <= W2 ->
  costs (R1 + R2) (W1 + W2) (try_catch m handler).
Proof.
  intros Hm Hh HR HW w. unfold try_catch. destruct (Hm w) as [Hr Hw].
  destruct (m w) as [[a|e] w1]; cbn [snd] in *; [split; lia|].
  destruct (Hh e w1). split; lia.
Qed.

Lemma costs_ret {A} (a : A) : costs 0 0 (ret a).
Proof. intros w. cbn [ret snd]. split; lia. Qed.

Lemma costs_throw {A} e : costs 0 0 (@throw A e).
Proof. intros w. cbn [throw snd]. split; lia. Qed.

Lemma costs_updateImageState k newState : costs 0 0 (updateImageState k newState).
Proof. intros w. unfold updateImageState. split; cost_of_log. Qed.

Lemma costs_setIsAnalyzing b : costs 0 0 (setIsAnalyzing b).
Proof. intros w. unfold setIsAnalyzing. split; cost_of_log. Qed.

Lemma costs_console_error what e : costs 0 0 (console_error what e).
Proof. intros w. split; cost_of_log. Qed.

Lemma costs_sleep ms : costs 0 ms (sleep ms).
Proof. intros w. unfold sleep. split; cost_of_log. Qed.

Lemma costs_forEach {A} (R W : Z) (l : list A) (f : A -> M unit) :
  (forall x, costs R W (f x)) -> 0 <= R -> 0 <= W ->
  costs (Z.of_nat (List.length l) * R) (Z.of_nat (List.length l) * W) (forEach l f).
Proof.
  intros Hf HR HW. induction l as [|x l IH].
  - apply costs_ret.
  - cbn [forEach].
    eapply costs_weaken;
      [ eapply costs_bind; [apply Hf | intros _; exact IH | nia | nia]
      | cbn [List.length]; nia
      | cbn [List.length]; nia ].
Qed.

Lemma costs_withRetry_3 {T} (operation : M T) :
  (forall w, requests (log (snd (operation w))) = requests (log w) + 1
             /\ waited (log (snd (operation w))) = waited (log w)) ->
  costs 3 6000 (withRetry operation 3 2000).
Proof.
  intros Hop w. unfold withRetry. change (Z.to_nat 3) with 3%nat.
  destruct (withRetry_from_law operation 3 2000 Hop 3%nat 0 None w)
    as (r & Hrange & Hr & Hw); [lia | lia | lia |].
  rewrite Hr, Hw.
  assert (Hcases : r = 1 \/ r = 2 \/ r = 3) by lia.
  destruct Hcases as [-> | [-> | ->]]; split; cbn; lia.
Qed.

Lemma costs_platform_prompt visualPrompts k :
  costs 0 0 (platform_prompt visualPrompts k).
Proof.
  unfold platform_prompt.
  destruct (platforms visualPrompts); [apply costs_ret | apply costs_throw].
Qed.

Lemma costs_triggerImageGeneration backend k prompt aspectRatio refImage :
  costs 3 6000 (triggerImageGeneration backend k prompt aspectRatio refImage).
Proof.
  unfold triggerImageGeneration.
  eapply costs_weaken; [|instantiate (1 := 0 + ((3 + 0) + 0)); lia
                        |instantiate (1 := 0 + ((6000 + 0) + 0)); lia].
  apply costs_bind; [apply costs_updateImageState | | lia | lia]. intros _.
  apply costs_try; [| intros e; apply costs_updateImageState | lia | lia].
  apply costs_bind; [| intros url; apply costs_updateImageState | lia | lia].
  apply costs_withRetry_3. apply imageOperation_cost.
Qed.

Lemma costs_render_all backend visualPrompts selectedImage :
  costs 12 30000 (render_all backend visualPrompts selectedImage).
Proof.
  unfold render_all.
  eapply costs_weaken;
    [ apply (costs_forEach 3 7500) | cbn; lia | cbn; lia ]; [|lia|lia].
  intros p. unfold render_step.
  eapply costs_weaken; [|instantiate (1 := 0 + (3 + 0)); lia
                        |instantiate (1 := 0 + (6000 + 1500)); lia].
  apply costs_bind; [apply costs_platform_prompt | | lia | lia]. intros pr.
  apply costs_bind; [apply costs_triggerImageGeneration | | lia | lia]. intros _.
  apply costs_sleep.
Qed.

Lemma costs_plan_all visualPrompts : costs 0 0 (plan_all visualPrompts).
Proof.
  unfold plan_all.
  eapply costs_weaken;
    [ apply (costs_forEach 0 0) | cbn; lia | cbn; lia ]; [|lia|lia].
  intros p.
  eapply costs_weaken; [|instantiate (1 := 0 + 0); lia|instantiate (1 := 0 + 0); lia].
  apply costs_bind; [apply costs_platform_prompt | | lia | lia]. intros pr.
  apply costs_updateImageState.
Qed.

Lemma costs_updates (f : PlatformConfig -> PartialImageState) :
  costs 0 0 (forEach PLATFORMS (fun p => updateImageState (key p) (f p))).
Proof.
  eapply costs_weaken;
    [ apply (costs_forEach 0 0) | cbn; lia | cbn; lia ]; [|lia|lia].
  intros p. apply costs_updateImageState.
Qed.

Lemma costs_handleGenerateAll backend JSON_parse userInput selectedImage :
  costs 15 36000 (handleGenerateAll backend JSON_parse userInput selectedImage).
Proof.
  unfold handleGenerateAll.
  destruct (nothing_to_generate userInput selectedImage).
  { eapply costs_weaken; [apply costs_ret | lia | lia]. }
  eapply costs_weaken;
    [|instantiate (1 := 0 + (0 + ((3 + (0 + (0 + 12))) + (0 + (0 + 0))))); lia
     |instantiate (1 := 0 + (0 + ((6000 + (0 + (0 + 30000))) + (0 + (0 + 0))))); lia].
  apply costs_bind; [apply costs_setIsAnalyzing | | lia | lia]. intros _.
  apply costs_bind; [apply costs_updates | | lia | lia]. intros _.
  apply costs_try; [| | lia | lia].
  - apply costs_bind; [| | lia | lia].
    + apply costs_withRetry_3. apply promptsOperation_cost.
    + intros visualPrompts.
      apply costs_bind; [apply costs_setIsAnalyzing | | lia | lia]. intros _.
      apply costs_bind; [apply costs_plan_all | | lia | lia]. intros _.
      apply costs_render_all.
  - intros e.
    apply costs_bind; [apply costs_console_error | | lia | lia]. intros _.
    apply costs_bind; [apply costs_setIsAnalyzing | | lia | lia]. intros _.
    apply costs_updates.
Qed.

(** X20. Whatever the input and the backend, a run of [handleGenerateAll]
    makes at most 15 backend requests, three for the derivation and three
    for each platform, and spends at most 36000 ms in timeouts, backoff and
    pacing together. *)
Theorem generateAll_cost_is_bounded
  (backend : Backend) (JSON_parse : JsonParser)
  (userInput : string) (selectedImage : option string) (w : World) :
  let w' := snd (handleGenerateAll backend JSON_parse userInput selectedImage w) in
  requests (events_since w w') <= 15 /\ waited (events_since w w') <= 36000.
Proof.
  cbn zeta.
  destruct (handleGenerateAll_evolves backend JSON_parse userInput selectedImage w)
    as (evs & L & _ & _).
  destruct (costs_handleGenerateAll backend JSON_parse userInput selectedImage w)
    as [Hr Hw].
  rewrite (events_since_app _ _ _ L).
  rewrite L, requests_app in Hr. rewrite L, waited_app in Hw. lia.
Qed.

(** The bound is reached by a backend that refuses two requests out of
    three. *)
Example generateAll_cost_is_reached :
  let w' := snd (handleGenerateAll Samples.grudging_backend Fixtures.parser
                   Fixtures.context None initial_world) in
  requests (events_since initial_world w') = 15
  /\ waited (events_since initial_world w') = 36000.
Proof. split; reflexivity. Qed.

Lemma withRetry_3_at_least {T} (operation : M T) (w : World) :
  (forall w0, requests (log (snd (operation w0))) = requests (log w0) + 1
              /\ waited (log (snd (operation w0))) = waited (log w0)) ->
  let w' := snd (withRetry operation 3 2000 w) in
  requests (log w) + 1 <= requests (log w') /\ waited (log w) <= waited (log w').
Proof.
  intros Hop. cbn zeta. unfold withRetry. change (Z.to_nat 3) with 3%nat.
  destruct (withRetry_from_law operation 3 2000 Hop 3%nat 0 None w)
    as (r & Hrange & Hr & Hw); [lia | lia | lia |].
  rewrite Hr, Hw.
  assert (Hcases : r = 1 \/ r = 2 \/ r = 3) by lia.
  destruct Hcases as [-> | [-> | ->]]; split; cbn; lia.
Qed.

Lemma triggerImageGeneration_at_least backend k prompt aspectRatio refImage w :
  let w' := snd (triggerImageGeneration backend k prompt aspectRatio refImage w) in
  requests (log w) + 1 <= requests (log w') /\ waited (log w) <= waited (log w').
Proof.
  cbn zeta. unfold triggerImageGeneration, bind, try_catch, updateImageState, act.
  set (w1 := {| images := _; isAnalyzing := isAnalyzing w; log := _ |}).
  pose proof (withRetry_3_at_least
                (imageOperation backend prompt aspectRatio refImage) w1
                (imageOperation_cost backend prompt aspectRatio refImage)) as H.
  cbn zeta in H. fold (generateImage backend prompt aspectRatio refImage) in H.
  assert (H1 : requests (log w1) = requests (log w) /\ waited (log w1) = waited (log w))
    by (subst w1; split; cost_of_log).
  destruct (generateImage backend prompt aspectRatio refImage w1) as [[url|e] w2];
    cbn [snd] in H; cbn [snd log];
    rewrite requests_app, waited_app; cbn [requests waited]; lia.
Qed.

Section RenderingAtLeast.

Variable backend : Backend.
Variable visualPrompts : VisualPrompts.
Variable entries : PlatformKey -> option string.
Hypothesis has_platforms : platforms visualPrompts = Some entries.
Variable selectedImage : option string.

Lemma render_step_at_least p w :
  let run := render_step backend visualPrompts selectedImage p w in
  fst run = Returned tt
  /\ requests (log w) + 1 <= requests (log (snd run))
  /\ waited (log w) + 1500 <= waited (log (snd run)).
Proof.
  cbn zeta.
  destruct (steps_triggerImageGeneration backend (key p) (entries (key p))
              (apiAspectRatio p) (or_undefined selectedImage) w)
    as (body & outcome & w1 & (Htrig & _) & _).
  pose proof (triggerImageGeneration_at_least backend (key p) (entries (key p))
                (apiAspectRatio p) (or_undefined selectedImage) w) as H.
  cbn zeta in H. rewrite Htrig in H. cbn [snd] in H.
  unfold render_step, bind, platform_prompt. rewrite has_platforms. cbn [ret].
  rewrite Htrig. unfold sleep, act, emit. cbn [fst snd log].
  split; [reflexivity|].
  rewrite requests_app, waited_app. cbn [requests waited]. lia.
Qed.

Lemma render_list_at_least l w :
  let run := forEach l (render_step backend visualPrompts selectedImage) w in
  fst run = Returned tt
  /\ requests (log w) + Z.of_nat (List.length l) <= requests (log (snd run))
  /\ waited (log w) + Z.of_nat (List.length l) * 1500 <= waited (log (snd run)).
Proof.
  revert w; induction l as [|p l IH]; intros w.
  - cbn. repeat split; lia.
  - cbn zeta. cbn [forEach]. unfold bind.
    destruct (render_step_at_least p w) as (Hret & Hr & Hw).
    destruct (render_step backend visualPrompts selectedImage p w) as [r w1].
    cbn [fst snd] in Hret, Hr, Hw. subst r.
    destruct (IH w1) as (Hret' & Hr' & Hw').
    split; [exact Hret'|]. cbn [List.length]. split; lia.
Qed.

End RenderingAtLeast.

Lemma derivation_at_least backend JSON_parse userInput selectedImage w :
  let w1 := snd (derivation backend JSON_parse userInput selectedImage w) in
  requests (log w) + 1 <= requests (log w1) /\ waited (log w) <= waited (log w1).
Proof.
  cbn zeta. unfold derivation.
  destruct (steps_setIsAnalyzing true w) as [wa Ha].
  destruct (steps_forEach_update (fun _ => set_idle) PLATFORMS wa) as [wr Hr].
  fold reset_all in Hr.
  pose proof (steps_bind _ (fun _ => reset_all) _ _ _ _ _ _ _ _ Ha Hr eq_refl)
    as (Hrun & L & _).
  rewrite Hrun. cbn [snd].
  pose proof (withRetry_3_at_least
                (promptsOperation backend JSON_parse userInput
                   (or_undefined selectedImage)) wr
                (promptsOperation_cost backend JSON_parse userInput
                   (or_undefined selectedImage))) as H.
  cbn zeta in H.
  fold (generateVisualPrompts backend JSON_parse userInput (or_undefined selectedImage))
    in H.
  assert (Hreset : requests (log wr) = requests (log w)
                   /\ waited (log wr) = waited (log w)).
  { rewrite L, requests_app, waited_app. cbn. split; lia. }
  lia.
Qed.

(** X21. A run whose derivation returned the prompts makes at least five
    backend requests, one for the derivation and one for each platform, and
    spends at least 6000 ms in timeouts, the pacing delay after each of the
    four platforms, however fast the backend answers. *)
Theorem generateAll_rendering_takes_at_least
  (backend : Backend) (JSON_parse : JsonParser)
  (userInput : string) (selectedImage : option string) (w : World)
  (visualPrompts : VisualPrompts) (entries : PlatformKey -> option string) :
  nothing_to_generate userInput selectedImage = false ->
  fst (derivation backend JSON_parse userInput selectedImage w)
  = Returned visualPrompts ->
  platforms visualPrompts = Some entries ->
  let w' := snd (handleGenerateAll backend JSON_parse userInput selectedImage w) in
  5 <= requests (events_since w w') /\ 6000 <= waited (events_since w w').
Proof.
  intros Hguard Hderived Hentries. cbn zeta.
  destruct (handleGenerateAll_evolves backend JSON_parse userInput selectedImage w)
    as (evs & L & _ & _).
  rewrite (events_since_app _ _ _ L).
  assert (Hlog : requests (log w) + 5
                 <= requests (log (snd (handleGenerateAll backend JSON_parse userInput
                                          selectedImage w)))
                 /\ waited (log w) + 6000
                    <= waited (log (snd (handleGenerateAll backend JSON_parse
                                           userInput selectedImage w)))).
  { rewrite (handleGenerateAll_unfold backend JSON_parse userInput selectedImage w Hguard).
    cbn zeta.
    pose proof (derivation_at_least backend JSON_parse userInput selectedImage w) as H1.
    cbn zeta in H1.
    destruct (derivation backend JSON_parse userInput selectedImage w)
      as [r w1]. cbn [fst snd] in Hderived, H1. subst r.
    destruct (steps_setIsAnalyzing false w1) as [w2 (H2 & L2 & _)].
    destruct (steps_plan_all visualPrompts entries Hentries w2) as [w3 (H3 & L3 & _)].
    pose proof (render_list_at_least backend visualPrompts entries Hentries
                  selectedImage PLATFORMS w3) as (Hret & Hr & Hw).
    unfold try_catch, bind. rewrite H2, H3. unfold render_all.
    destruct (forEach PLATFORMS (render_step backend visualPrompts selectedImage) w3)
      as [r w4]. cbn [fst snd] in Hret, Hr, Hw |- *. subst r. cbn [snd].
    rewrite L3, L2, !requests_app in Hr. rewrite L3, L2, !waited_app in Hw.
    change (requests (plan_events entries)) with 0 in Hr.
    change (waited (plan_events entries)) with 0 in Hw.
    cbn [requests waited List.length PLATFORMS] in Hr, Hw. lia. }
  rewrite L, requests_app, waited_app in Hlog. lia.
Qed.

Lemma generateAll_rendering_takes_at_least_witness :
  let w' := snd (handleGenerateAll Fixtures.good_backend Fixtures.parser
                   Fixtures.context None initial_world) in
  5 <= requests (events_since initial_world w')
  /\ 6000 <= waited (events_since initial_world w').
Proof.
  exact (generateAll_rendering_takes_at_least Fixtures.good_backend Fixtures.parser
           Fixtures.context None initial_world Fixtures.prompts Samples.entries
           eq_refl eq_refl eq_refl).
Defined.

(** With a backend that answers at once the run costs just that. *)
Example generateAll_least_cost :
  let w' := snd (handleGenerateAll Fixtures.good_backend Fixtures.parser
                   Fixtures.context None initial_world) in
  requests (events_since initial_world w') = 5
  /\ waited (events_since initial_world w') = 6000.
Proof. split; reflexivity. Qed.

(** X22. One call of [generateVisualPrompts] makes one, two or three
    requests, whatever the backend and [JSON.parse] do, and after [r]
    requests it has waited [2000 * (2 ^ (r - 1) - 1)] ms. *)
Theorem generateVisualPrompts_attempts_and_waits
  (backend : Backend) (JSON_parse : JsonParser) (userContext : string)
  (imageBase64 : option string) (w : World) :
  let w' := snd (generateVisualPrompts backend JSON_parse userContext imageBase64 w) in
  exists r,
    1 <= r <= 3
    /\ requests (log w') = requests (log w) + r
    /\ waited (log w') = waited (log w) + 2000 * (2 ^ (r - 1) - 1).
Proof.
  cbn zeta. unfold generateVisualPrompts, withRetry. change (Z.to_nat 3) with 3%nat.
  destruct (withRetry_from_law
              (promptsOperation backend JSON_parse userContext imageBase64) 3 2000
              (promptsOperation_cost backend JSON_parse userContext imageBase64)
              3%nat 0 None w) as (r & Hrange & Hr & Hw); [lia | lia | lia |].
  exists r. split; [lia|]. split; [exact Hr|].
  rewrite Hw. replace (0 + r - 1) with (r - 1) by lia. reflexivity.
Qed.

(** ** More on the runs of handleGenerateAll *)

(** X23. A derivation that returns a value without [platforms] is handled
    as a failed analysis: reading the first prompt throws inside the [try],
    so all four platforms end in status error with "Failed to analyze
    context." and the image model is never called. *)
Theorem generateAll_without_platforms
  (backend : Backend) (JSON_parse : JsonParser)
  (userInput : string) (selectedImage : option string) (w : World)
  (visualPrompts : VisualPrompts) :
  nothing_to_generate userInput selectedImage = false ->
  fst (derivation backend JSON_parse userInput selectedImage w)
  = Returned visualPrompts ->
  platforms visualPrompts = None ->
  exists w',
    handleGenerateAll backend JSON_parse userInput selectedImage w = (Returned tt, w')
    /\ (forall k, status (get k (images w')) = error
                  /\ errorMsg (get k (images w')) = Some "Failed to analyze context.")
    /\ Forall (fun ev => is_render_call ev = false) (events_since w w').
Proof.
  intros Hguard Hderived Hnone.
  destruct (handleGenerateAll_run backend JSON_parse userInput selectedImage w Hguard)
    as (tail & rest & w' & Hrun & L & Hi & Htail & Hrest).
  rewrite Hderived, Hnone in Hrest. destruct Hrest as (e & ->).
  exists w'. split; [exact Hrun|]. split.
  - intros k. rewrite Hi, replay_reset_fail. split; reflexivity.
  - rewrite (events_since_app _ _ _ L).
    apply Forall_app. split; [repeat constructor|].
    constructor; [reflexivity|].
    apply Forall_app. split; [|repeat constructor].
    eapply Forall_impl; [|exact Htail].
    intros ev. apply attempt_prompts_not_render.
Qed.

Lemma generateAll_without_platforms_witness :
  exists w',
    handleGenerateAll Fixtures.good_backend
      (fun _ => Returned {| visualStyleSeed := Some "soft light"; platforms := None |})
      Fixtures.context None initial_world = (Returned tt, w')
    /\ (forall k, status (get k (images w')) = error
                  /\ errorMsg (get k (images w')) = Some "Failed to analyze context.")
    /\ Forall (fun ev => is_render_call ev = false) (events_since initial_world w').
Proof.
  apply (generateAll_without_platforms Fixtures.good_backend
           (fun _ => Returned {| visualStyleSeed := Some "soft light"; platforms := None |})
           Fixtures.context None initial_world
           {| visualStyleSeed := Some "soft light"; platforms := None |});
    reflexivity.
Defined.

Lemma before_first_render_app a b :
  Forall (fun e => is_render_call e = false) a ->
  before_first_render (a ++ b) = a ++ before_first_render b.
Proof.
  induction 1 as [|e a He _ IH]; [reflexivity|].
  cbn [app before_first_render]. now rewrite He, IH.
Qed.

(** X24. The plan is in the store before any image is asked for: when the
    first request to the image model is made, every platform is loading
    with the prompt derived for it and without errorMsg, its imageUrl being
    the one it had before the run. *)
Theorem generateAll_plans_before_first_render
  (backend : Backend) (JSON_parse : JsonParser)
  (userInput : string) (selectedImage : option string) (w : World)
  (visualPrompts : VisualPrompts) (entries : PlatformKey -> option string)
  (k : PlatformKey) :
  nothing_to_generate userInput selectedImage = false ->
  fst (derivation backend JSON_parse userInput selectedImage w)
  = Returned visualPrompts ->
  platforms visualPrompts = Some entries ->
  let w' := snd (handleGenerateAll backend JSON_parse userInput selectedImage w) in
  let s := get k (images_at_first_render w w') in
  status s = loading
  /\ prompt s = entries k
  /\ errorMsg s = None
  /\ imageUrl s = imageUrl (get k (images w)).
Proof.
  intros Hguard Hderived Hentries. cbn zeta.
  destruct (handleGenerateAll_run backend JSON_parse userInput selectedImage w Hguard)
    as (tail & rest & w' & Hrun & L & _ & Htail & Hrest).
  rewrite Hderived, Hentries in Hrest. destruct Hrest as (segs & -> & Hsegs).
  rewrite Hrun. cbn [snd]. unfold images_at_first_render.
  rewrite (events_since_app _ _ _ L).
  unfold PLATFORMS in Hsegs.
  inversion Hsegs as [|p1 s1 l1 r1 H1 T1]; subst; clear Hsegs T1.
  destruct H1 as (body & outcome & -> & _ & _). cbn [key apiAspectRatio].
  rewrite before_first_render_app by (unfold reset_events, PLATFORMS; repeat constructor).
  cbn [before_first_render is_render_call prompts_request config].
  fold (prompts_request userInput (or_undefined selectedImage)).
  rewrite before_first_render_app
    by (eapply Forall_impl; [|exact Htail]; intros ev; apply attempt_prompts_not_render).
  rewrite before_first_render_app by (unfold plan_events, PLATFORMS; repeat constructor).
  cbn [List.concat app before_first_render is_render_call image_request config].
  rewrite (replay_skips_attempts _ _ _ _ _ Htail).
  rewrite !replay_app, replay_cons. cbn [replay fold_left apply_event].
  fold (replay (images w) reset_events).
  fold (replay (replay (images w) reset_events) (plan_events entries)).
  destruct (PlatformKey_eq_dec k linkedin) as [->|Hne].
  - rewrite get_set_same, replay_plan, replay_reset. repeat split.
  - rewrite get_set_other by exact Hne.
    rewrite replay_plan, replay_reset. repeat split.
Qed.

Lemma generateAll_plans_before_first_render_witness :
  let w' := Fixtures.after_second_run in
  let s := get blog (images_at_first_render Fixtures.after_good_run w') in
  status s = loading
  /\ prompt s = Samples.entries blog
  /\ errorMsg s = None
  /\ imageUrl s = imageUrl (get blog (images Fixtures.after_good_run)).
Proof.
  exact (generateAll_plans_before_first_render Fixtures.good_backend Fixtures.parser
           Fixtures.context None Fixtures.after_good_run Fixtures.prompts
           Samples.entries blog eq_refl eq_refl eq_refl).
Defined.

(** X25. The text of a backend error never reaches the store: in every
    reachable world the errorMsg of a platform, when there is one, is
    "Generation failed." or "Failed to analyze context.". *)
Theorem reachable_errorMsg_is_fixed (w : World) (k : PlatformKey) (msg : string) :
  reachable w ->
  errorMsg (get k (images w)) = Some msg ->
  pipeline_message msg.
Proof.
  intros Hreach. revert k msg.
  induction Hreach as [| backend JSON_parse userInput selectedImage w _ IH
                       | backend selectedImage k0 w _ IH]; intros k msg.
  - destruct k; discriminate.
  - destruct (nothing_to_generate userInput selectedImage) eqn:Hguard.
    + unfold handleGenerateAll. rewrite Hguard. apply IH.
    + destruct (handleGenerateAll_final_store backend JSON_parse userInput
                  selectedImage w Hguard) as (w' & Hrun & Hstore).
      rewrite Hrun. cbn [snd].
      destruct (Hstore k) as [(pr & outcome & Hout & ->) | ->].
      * destruct Hout as [-> | (url & _ & ->)];
          cbn [spread set_idle set_loading set_success set_error set_errorMsg errorMsg];
          [intros [= <-]; now left | discriminate].
      * cbn [spread set_idle set_error set_errorMsg errorMsg].
        intros [= <-]. now right.
  - unfold handleRegenerateSingle.
    destruct (or_undefined (prompt (get k0 (images w)))) as [cached|]; [|apply IH].
    destruct (find_platform k0) as (cfg & -> & _ & _).
    destruct (steps_triggerImageGeneration backend k0 (Some cached) (apiAspectRatio cfg)
                (or_undefined selectedImage) w)
      as (body & outcome & w' & (Hrun & _ & Hi) & Hbody & Hout).
    rewrite Hrun. cbn [snd]. rewrite Hi, !replay_cons. cbn [apply_event].
    rewrite replay_app, (replay_attempt_events _ body _ Hbody).
    cbn [replay fold_left apply_event].
    destruct (PlatformKey_eq_dec k k0) as [->|Hne].
    + rewrite !get_set_same.
      destruct Hout as [-> | (url & _ & ->)];
        cbn [spread set_loading set_success set_error set_errorMsg errorMsg];
        [intros [= <-]; now left | apply IH].
    + rewrite !get_set_other by exact Hne. apply IH.
Qed.

Lemma reachable_errorMsg_is_fixed_witness :
  pipeline_message "Generation failed.".
Proof.
  exact (reachable_errorMsg_is_fixed Fixtures.after_regenerate linkedin
           "Generation failed."
           (reachable_regenerate _ _ _ _
              (reachable_generateAll _ _ _ _ _ reachable_start))
           eq_refl).
Defined.
